(** * dRowAudio: LoopingAudioSource

    A shallow embedding of [dRowAudio_LoopingAudioSource.cpp] and the
    properties of its loop arithmetic.

    Conventions of the embedding.

    - [int64] and [int] values are integers of [Z]. Each C++ operation on
      them is followed by its two's-complement wrap ([wrap64], [wrap32]),
      which is what the targets of the library compute; the theorems
      state the bounds under which no wrap takes place.
    - [double] values are the kernel's binary64 floats.
    - The [%] operator traps on a zero divisor, and a buffer access
      outside the allocated samples has no defined result: both make the
      operation return [None].
    - The critical section [loopPosLock] serialises the callers; the
      functions below are the sequential bodies run under it. *)

From Stdlib Require Import ZArith List Bool Lia Permutation.
From Stdlib Require Import PrimFloat SpecFloat FloatOps.
Import ListNotations.
Local Open Scope Z_scope.

Set Implicit Arguments.

(* ================================================================== *)
(** ** Machine integers *)

Module Int.

Definition min_int64 : Z := - 2 ^ 63.
Definition max_int64 : Z := 2 ^ 63 - 1.
Definition min_int32 : Z := - 2 ^ 31.
Definition max_int32 : Z := 2 ^ 31 - 1.

(** Two's-complement reduction of an integer to [w] bits. *)
Definition wrap (w : Z) (z : Z) : Z :=
  (z + 2 ^ (w - 1)) mod 2 ^ w - 2 ^ (w - 1).

Definition wrap64 : Z -> Z := wrap 64.
Definition wrap32 : Z -> Z := wrap 32.

Definition add64 (a b : Z) : Z := wrap64 (a + b).
Definition sub64 (a b : Z) : Z := wrap64 (a - b).

(** [a % b] on [int64]: the remainder has the sign of [a]; a zero
    divisor traps, and so does [INT64_MIN % -1]. *)
Definition rem64 (a b : Z) : option Z :=
  if b =? 0 then None
  else if (a =? min_int64) && (b =? -1) then None
  else Some (Z.rem a b).

(** Conversion of an [int64] to [int] (the assignments to
    [tempInfo.startSample] and [tempInfo.numSamples]). *)
Definition to_int (a : Z) : Z := wrap32 a.

Definition int64_range (z : Z) : Prop := min_int64 <= z <= max_int64.
Definition int32_range (z : Z) : Prop := min_int32 <= z <= max_int32.

(** Conversion of a [double] to [int64]: truncation toward zero; a value
    that does not fit (or an infinity, or a NaN) gives the indefinite
    integer [INT64_MIN], as the conversion instruction does. *)
Definition double_to_int64 (x : float) : Z :=
  match Prim2SF x with
  | S754_zero _ => 0
  | S754_finite sg m e =>
      let mag := if 0 <=? e then Z.shiftl (Z.pos m) e
                 else Z.shiftr (Z.pos m) (- e) in
      let v := if sg then - mag else mag in
      if (min_int64 <=? v) && (v <=? max_int64) then v else min_int64
  | S754_infinity _ => min_int64
  | S754_nan => min_int64
  end.

End Int.
Import Int.

(* ================================================================== *)
(** ** A small error monad *)

Definition bind {A B : Type} (m : option A) (k : A -> option B) : option B :=
  match m with
  | Some a => k a
  | None => None
  end.

Notation "x <- m ;; k" := (bind m (fun x => k))
  (at level 61, m at next level, right associativity).
Notation "' p <- m ;; k" := (bind m (fun x => match x with p => k end))
  (at level 61, p pattern, m at next level, right associativity).

(** JUCE's [jassert] reports a failed condition in a debug build (and
    stops in the debugger when there is one) and is compiled out of a
    release build; in neither does it end the call, which goes on with
    [continue]. *)
Definition jassert {A : Type} (condition : bool) (continue : A) : A := continue.

(* ================================================================== *)
(** ** Sample buffers *)

Section Buffers.

Variable Sample : Type.

(** JUCE's [AudioSampleBuffer] (a library type, used here through its
    constructor, [setSize], [getNumSamples], [getNumChannels] and
    [copyFrom]): a buffer is the list of its channels, each the list of
    its samples. *)
Definition AudioSampleBuffer : Type := list (list Sample).

Variable silence : Sample.

Definition makeBuffer (numChannels numSamples : Z) : AudioSampleBuffer :=
  repeat (repeat silence (Z.to_nat numSamples)) (Z.to_nat numChannels).

Definition getNumChannels (b : AudioSampleBuffer) : Z :=
  Z.of_nat (length b).

Definition getNumSamples (b : AudioSampleBuffer) : Z :=
  match b with
  | [] => 0
  | ch :: _ => Z.of_nat (length ch)
  end.

(** [setSize] without [keepExistingContent]: a fresh allocation. *)
Definition setSize (b : AudioSampleBuffer) (newNumChannels newNumSamples : Z)
  : AudioSampleBuffer :=
  makeBuffer newNumChannels newNumSamples.

(** Overwrite [length vals] samples of one channel from [start] on. *)
Definition writeSamples (ch : list Sample) (start : Z) (vals : list Sample)
  : option (list Sample) :=
  if (0 <=? start) && (start + Z.of_nat (length vals) <=? Z.of_nat (length ch))
  then Some (firstn (Z.to_nat start) ch ++ vals
             ++ skipn (Z.to_nat start + length vals) ch)
  else None.

(** Read [num] samples of one channel from [start] on. *)
Definition readSamples (ch : list Sample) (start num : Z)
  : option (list Sample) :=
  if (0 <=? start) && (0 <=? num) && (start + num <=? Z.of_nat (length ch))
  then Some (firstn (Z.to_nat num) (skipn (Z.to_nat start) ch))
  else None.

(** Replace channel [i] of a buffer. *)
Fixpoint setChannel (b : AudioSampleBuffer) (i : nat) (ch : list Sample)
  : AudioSampleBuffer :=
  match b, i with
  | [], _ => []
  | _ :: rest, O => ch :: rest
  | c :: rest, S j => c :: setChannel rest j ch
  end.

(** [dest.copyFrom (destChannel, destStartSample, source, sourceChannel,
    sourceStartSample, numSamples)]. *)
Definition copyFrom (dest : AudioSampleBuffer) (destChannel : nat)
    (destStartSample : Z) (source : AudioSampleBuffer) (sourceChannel : nat)
    (sourceStartSample num : Z) : option AudioSampleBuffer :=
  if num >? 0 then
    src <- nth_error source sourceChannel ;;
    dst <- nth_error dest destChannel ;;
    vals <- readSamples src sourceStartSample num ;;
    out <- writeSamples dst destStartSample vals ;;
    Some (setChannel dest destChannel out)
  else Some dest.

(** JUCE's [AudioSourceChannelInfo], the destination of a block request:
    a buffer, the offset of the first sample to write and the number of
    samples wanted. *)
Record AudioSourceChannelInfo : Type := mkInfo {
  buffer : AudioSampleBuffer;
  startSample : Z;
  numSamples : Z
}.

End Buffers.

Arguments mkInfo {Sample} _ _ _.
Arguments buffer {Sample} _.
Arguments startSample {Sample} _.
Arguments numSamples {Sample} _.
Arguments getNumChannels {Sample} _.
Arguments getNumSamples {Sample} _.
Arguments writeSamples {Sample} _ _ _.
Arguments readSamples {Sample} _ _ _.
Arguments setChannel {Sample} _ _ _.
Arguments copyFrom {Sample} _ _ _ _ _ _ _.

(* ================================================================== *)
(** ** The inner source *)

(** JUCE's [PositionableAudioSource], the interface of the object behind
    the [input] pointer. A block request returns the source after the read
    and the destination buffer after the write. *)
Class PositionableAudioSource (Sample Src : Type) : Type := {
  input_prepareToPlay : Src -> Z -> float -> Src;
  input_releaseResources : Src -> Src;
  input_getNextAudioBlock :
    Src -> AudioSourceChannelInfo Sample
    -> option (Src * AudioSampleBuffer Sample);
  input_setNextReadPosition : Src -> Z -> Src;
  input_getNextReadPosition : Src -> Z;
  input_getTotalLength : Src -> Z;
  input_isLooping : Src -> bool
}.

(* ================================================================== *)
(** ** LoopingAudioSource *)

Section LoopingAudioSource.

Context {Sample Src : Type} {PAS : PositionableAudioSource Sample Src}.
Variable silence : Sample.

(** Modelled from the spec: the class declaration (the header) is not among
    the sources. The members are those the member functions use; the two
    sample bounds are [int64] like the locals computed from them, the
    times and the rate are [double]. [tempInfo.buffer] always points to
    [tempBuffer], so [tempInfo] keeps its two integers only. *)
Record LoopingAudioSource : Type := mkLoopingAudioSource {
  input : Src;
  isLoopingBetweenTimes : bool;
  loopStartTime : float;
  loopEndTime : float;
  loopStartSample : Z;
  loopEndSample : Z;
  currentSampleRate : float;
  tempBuffer : AudioSampleBuffer Sample;
  tempInfo_startSample : Z;
  tempInfo_numSamples : Z
}.

Definition with_input (s : LoopingAudioSource) (i : Src) : LoopingAudioSource :=
  mkLoopingAudioSource i (isLoopingBetweenTimes s) (loopStartTime s)
    (loopEndTime s) (loopStartSample s) (loopEndSample s)
    (currentSampleRate s) (tempBuffer s) (tempInfo_startSample s)
    (tempInfo_numSamples s).

(** The constructor. It leaves the two loop times and the sample rate
    uninitialised: [garbage] stands for whatever they hold. *)
Definition construct (inputSource : Src) (garbage : float * float * float)
  : LoopingAudioSource :=
  let '(t0, t1, r) := garbage in
  let tempBuffer0 := makeBuffer silence 2 512 in
  mkLoopingAudioSource inputSource false t0 t1 0 0 r tempBuffer0
    0 (getNumSamples tempBuffer0).

Definition getNextReadPosition (s : LoopingAudioSource) : Z :=
  input_getNextReadPosition (input s).

Definition getTotalLength (s : LoopingAudioSource) : Z :=
  input_getTotalLength (input s).

Definition isLooping (s : LoopingAudioSource) : bool :=
  input_isLooping (input s).

Definition setLoopBetweenTimes (s : LoopingAudioSource) (shouldLoop : bool)
  : LoopingAudioSource :=
  mkLoopingAudioSource (input s) shouldLoop (loopStartTime s)
    (loopEndTime s) (loopStartSample s) (loopEndSample s)
    (currentSampleRate s) (tempBuffer s) (tempInfo_startSample s)
    (tempInfo_numSamples s).

Definition getLoopBetweenTimes (s : LoopingAudioSource) : bool :=
  isLoopingBetweenTimes s.

(** The value [setNextReadPosition] hands to the inner source: the local
    [newPosition] after the two conditional assignments. *)
Definition wrappedPosition (s : LoopingAudioSource) (newPosition : Z)
  : option Z :=
  if isLoopingBetweenTimes s
     && (getNextReadPosition s >? loopStartSample s)
     && (getNextReadPosition s <? loopEndSample s)
  then
    let numLoopSamples := sub64 (loopEndSample s) (loopStartSample s) in
    if newPosition >? loopEndSample s then
      r <- rem64 (sub64 newPosition (loopEndSample s)) numLoopSamples ;;
      Some (add64 (loopStartSample s) r)
    else if newPosition <? loopStartSample s then
      r <- rem64 (sub64 (loopStartSample s) newPosition) numLoopSamples ;;
      Some (sub64 (loopEndSample s) r)
    else Some newPosition
  else Some newPosition.

Definition setNextReadPosition (s : LoopingAudioSource) (newPosition : Z)
  : option LoopingAudioSource :=
  p <- wrappedPosition s newPosition ;;
  Some (with_input s (input_setNextReadPosition (input s) p)).

(** The condition of the assertion that opens [setLoopTimes]. *)
Definition setLoopTimes_asserts (startTime endTime : float) : bool :=
  PrimFloat.ltb startTime endTime.

Definition setLoopTimes (s : LoopingAudioSource) (startTime endTime : float)
  : option LoopingAudioSource :=
  jassert (setLoopTimes_asserts startTime endTime)
    (let s1 :=
       mkLoopingAudioSource (input s) (isLoopingBetweenTimes s)
         startTime endTime
         (double_to_int64 (PrimFloat.mul startTime (currentSampleRate s)))
         (double_to_int64 (PrimFloat.mul endTime (currentSampleRate s)))
         (currentSampleRate s) (tempBuffer s) (tempInfo_startSample s)
         (tempInfo_numSamples s) in
     setNextReadPosition s1 (getNextReadPosition s1)).

Definition prepareToPlay (s : LoopingAudioSource)
    (samplesPerBlockExpected : Z) (sampleRate : float) : LoopingAudioSource :=
  let input1 := input_prepareToPlay (input s) samplesPerBlockExpected sampleRate in
  if getNumSamples (tempBuffer s) <? samplesPerBlockExpected then
    let tempBuffer1 := setSize silence (tempBuffer s) 2 samplesPerBlockExpected in
    mkLoopingAudioSource input1 (isLoopingBetweenTimes s) (loopStartTime s)
      (loopEndTime s) (loopStartSample s) (loopEndSample s) sampleRate
      tempBuffer1 (tempInfo_startSample s) (getNumSamples tempBuffer1)
  else
    mkLoopingAudioSource input1 (isLoopingBetweenTimes s) (loopStartTime s)
      (loopEndTime s) (loopStartSample s) (loopEndSample s) sampleRate
      (tempBuffer s) (tempInfo_startSample s) (tempInfo_numSamples s).

Definition releaseResources (s : LoopingAudioSource) : LoopingAudioSource :=
  with_input s (input_releaseResources (input s)).

(** The locals of [getNextAudioBlock]:
    [newEnd = loopStartSample + ((newStart + info.numSamples) % loopEndSample)],
    [numEndSamps = loopEndSample - newStart] and
    [numStartSamps = newEnd - loopStartSample]. *)
Definition newEnd_of (s : LoopingAudioSource) (newStart num : Z) : option Z :=
  r <- rem64 (add64 newStart num) (loopEndSample s) ;;
  Some (add64 (loopStartSample s) r).

Definition numEndSamps_of (s : LoopingAudioSource) (newStart : Z) : Z :=
  sub64 (loopEndSample s) newStart.

Definition numStartSamps_of (s : LoopingAudioSource) (newEnd : Z) : Z :=
  sub64 newEnd (loopStartSample s).

(** The loop over the channels of the caller's buffer that ends the
    split branch. *)
Fixpoint copyChannels (dest : AudioSampleBuffer Sample) (destStart : Z)
    (source : AudioSampleBuffer Sample) (num : Z) (chans : list nat)
  : option (AudioSampleBuffer Sample) :=
  match chans with
  | [] => Some dest
  | i :: rest =>
      d <- copyFrom dest i destStart source i 0 num ;;
      copyChannels d destStart source num rest
  end.

Definition getNextAudioBlock (s : LoopingAudioSource)
    (info : AudioSourceChannelInfo Sample)
  : option (LoopingAudioSource * AudioSampleBuffer Sample) :=
  if numSamples info >? 0 then
    if isLoopingBetweenTimes s then
      let newStart := getNextReadPosition s in
      newEnd <- newEnd_of s newStart (numSamples info) ;;
      if newEnd >? newStart then
        '(input1, out) <- input_getNextAudioBlock (input s) info ;;
        Some (with_input s input1, out)
      else
        let numEndSamps := numEndSamps_of s newStart in
        let numStartSamps := numStartSamps_of s newEnd in
        '(input1, temp1) <-
          input_getNextAudioBlock (input s)
            (mkInfo (tempBuffer s) 0 (to_int numEndSamps)) ;;
        let input2 := input_setNextReadPosition input1 (loopStartSample s) in
        '(input3, temp2) <-
          input_getNextAudioBlock input2
            (mkInfo temp1 (to_int numEndSamps) (to_int numStartSamps)) ;;
        out <- copyChannels (buffer info) (startSample info) temp2
                 (numSamples info)
                 (seq 0 (Z.to_nat (getNumChannels (buffer info)))) ;;
        Some (mkLoopingAudioSource input3 (isLoopingBetweenTimes s)
                (loopStartTime s) (loopEndTime s) (loopStartSample s)
                (loopEndSample s) (currentSampleRate s) temp2
                (to_int numEndSamps) (numSamples info),
              out)
    else
      '(input1, out) <- input_getNextAudioBlock (input s) info ;;
      Some (with_input s input1, out)
  else Some (s, buffer info).

(** Successive block requests of the sizes [sizes], each into a fresh
    buffer of [numChannels] channels, with the buffers they fill. *)
Fixpoint produceBlocks (s : LoopingAudioSource) (numChannels : Z)
    (sizes : list Z)
  : option (LoopingAudioSource * list (AudioSampleBuffer Sample)) :=
  match sizes with
  | [] => Some (s, [])
  | n :: rest =>
      '(s1, out) <-
        getNextAudioBlock s (mkInfo (makeBuffer silence numChannels n) 0 n) ;;
      '(s2, outs) <- produceBlocks s1 numChannels rest ;;
      Some (s2, out :: outs)
  end.

(** The samples of channel [ch] over a run of output buffers. *)
Definition channelStream (outs : list (AudioSampleBuffer Sample)) (ch : nat)
  : list Sample :=
  concat (map (fun b => nth ch b []) outs).

(** The scratch buffer has its two channels, each of [cap] samples. *)
Definition scratch_ready (s : LoopingAudioSource) (cap : Z) : Prop :=
  length (tempBuffer s) = 2%nat
  /\ Forall (fun ch => Z.of_nat (length ch) = cap) (tempBuffer s).

End LoopingAudioSource.

Arguments LoopingAudioSource : clear implicits.

(* ================================================================== *)
(** ** A ramp as inner source *)

(** Modelled from the spec: the inner source of the testable properties,
    which "emits sample index as value". Its state is its read cursor; a
    request of [numSamples] samples writes the indices from the cursor on
    into every channel of the destination and moves the cursor past them. *)
Record RampSource : Type := mkRamp { nextPlayPos : Z }.

Definition rampSamples (pos num : Z) : list Z :=
  map (fun k => pos + Z.of_nat k) (seq 0 (Z.to_nat num)).

Fixpoint writeChannels (b : AudioSampleBuffer Z) (start : Z) (vals : list Z)
  : option (AudioSampleBuffer Z) :=
  match b with
  | [] => Some []
  | ch :: rest =>
      c <- writeSamples ch start vals ;;
      r <- writeChannels rest start vals ;;
      Some (c :: r)
  end.

Definition ramp_getNextAudioBlock (r : RampSource)
    (info : AudioSourceChannelInfo Z)
  : option (RampSource * AudioSampleBuffer Z) :=
  if numSamples info >? 0 then
    out <- writeChannels (buffer info) (startSample info)
             (rampSamples (nextPlayPos r) (numSamples info)) ;;
    Some (mkRamp (add64 (nextPlayPos r) (numSamples info)), out)
  else Some (r, buffer info).

#[export] Instance RampPositionable : PositionableAudioSource Z RampSource := {|
  input_prepareToPlay := fun r _ _ => r;
  input_releaseResources := fun r => r;
  input_getNextAudioBlock := ramp_getNextAudioBlock;
  input_setNextReadPosition := fun _ newPosition => mkRamp newPosition;
  input_getNextReadPosition := nextPlayPos;
  input_getTotalLength := fun _ => max_int64;
  input_isLooping := fun _ => false
|}.

(* ================================================================== *)
(** ** What a looped ramp sounds like *)

(** The position that follows [p] in the loop region
    [[loopStart, loopEnd)]. *)
Definition loopNext (loopStart loopEnd p : Z) : Z :=
  if p + 1 <? loopEnd then p + 1 else loopStart.

Fixpoint loopPositions (loopStart loopEnd p : Z) (count : nat) : list Z :=
  match count with
  | O => []
  | S k => p :: loopPositions loopStart loopEnd (loopNext loopStart loopEnd p) k
  end.

Fixpoint loopAdvance (loopStart loopEnd p : Z) (count : nat) : Z :=
  match count with
  | O => p
  | S k => loopAdvance loopStart loopEnd (loopNext loopStart loopEnd p) k
  end.

(** In the words of the spec: no sample is skipped or duplicated, except
    at the seam, where [loopEnd - 1] is followed by [loopStart]. *)
Fixpoint gapless (loopStart loopEnd : Z) (l : list Z) : Prop :=
  match l with
  | a :: ((b :: _) as tl) =>
      (if a =? loopEnd - 1 then b = loopStart else b = a + 1)
      /\ gapless loopStart loopEnd tl
  | _ => True
  end.

(** A channel with [vals] written over it from [start] on. *)
Definition overwrite {A : Type} (start : Z) (vals : list A) (ch : list A)
  : list A :=
  firstn (Z.to_nat start) ch ++ vals ++ skipn (Z.to_nat start + length vals) ch.

(** The caller's buffer can take [num] samples from [start] on. *)
Definition destination_ready {A : Type} (info : AudioSourceChannelInfo A)
  : Prop :=
  0 <= startSample info
  /\ Forall (fun ch => startSample info + numSamples info
                       <= Z.of_nat (length ch)) (buffer info).

(** A wrapper around a ramp, as the scenarios set it up: constructed,
    prepared for [blockSize] samples at [sampleRate], given its loop times,
    switched to looping, and moved to [position]. *)
Definition scenario (blockSize : Z) (sampleRate startTime endTime : float)
    (position : Z) : option (LoopingAudioSource Z RampSource) :=
  let s0 := construct 0 (mkRamp 0) (0%float, 0%float, 0%float) in
  let s1 := prepareToPlay 0 s0 blockSize sampleRate in
  s2 <- setLoopTimes s1 startTime endTime ;;
  let s3 := setLoopBetweenTimes s2 true in
  setNextReadPosition s3 position.

(* ================================================================== *)
(** ** Conditions on a block request *)

Section Conditions.

Context {Sample Src : Type} {PAS : PositionableAudioSource Sample Src}.
Implicit Types (s : LoopingAudioSource Sample Src)
  (info : AudioSourceChannelInfo Sample).

(** The sample bounds are [int64] values. *)
Definition bounds_in_range s : Prop :=
  int64_range (loopStartSample s) /\ int64_range (loopEndSample s).

(** A region that starts at a sample position, has samples in it, and ends
    low enough for the sums of [getNextAudioBlock] to stay in [int64]. *)
Definition valid_region s : Prop :=
  0 <= loopStartSample s < loopEndSample s
  /\ 2 * loopEndSample s <= max_int64.

(** The read cursor is in [[loopStartSample, loopEndSample)]. *)
Definition cursor_in_region s : Prop :=
  loopStartSample s <= getNextReadPosition s < loopEndSample s.

(** The request can be served: the scratch buffer holds [cap] samples and
    the block is no longer, the block size is an [int], the caller's buffer
    has room for the block and no more channels than the scratch buffer. *)
Definition request_fits s info (cap : Z) : Prop :=
  scratch_ready s cap
  /\ numSamples info <= cap
  /\ numSamples info <= max_int32
  /\ (length (buffer info) <= 2)%nat
  /\ destination_ready info.

(** The inner source keeps nothing but its cursor: setting the position it
    already reports changes nothing. *)
Definition cursor_only_source : Prop :=
  forall i : Src,
    input_setNextReadPosition i (input_getNextReadPosition i) = i.

End Conditions.

(** The state a scenario reaches (the constructed wrapper if a step of
    the setup had failed). *)
Definition reached (o : option (LoopingAudioSource Z RampSource))
  : LoopingAudioSource Z RampSource :=
  match o with
  | Some s => s
  | None => construct 0 (mkRamp 0) (0%float, 0%float, 0%float)
  end.

(** The number of samples a run of blocks asks for. *)
Definition totalSamples (sizes : list Z) : nat :=
  list_sum (map Z.to_nat sizes).

(** The sizes [produceBlock] splits correctly: positive, no longer than
    the loop and than the scratch buffer, and an [int]. *)
Definition block_size_ok (loopStart loopEnd cap num : Z) : Prop :=
  0 < num <= loopEnd - loopStart /\ num <= cap /\ num <= max_int32.

(** What a block request returned: the caller's buffer, and the read
    cursor of the inner source afterwards. *)
Definition outputOf {Sample Src : Type}
    (r : option (LoopingAudioSource Sample Src * AudioSampleBuffer Sample))
  : option (AudioSampleBuffer Sample) :=
  option_map snd r.

Definition cursorAfter {Sample Src : Type}
    {PAS : PositionableAudioSource Sample Src}
    (r : option (LoopingAudioSource Sample Src * AudioSampleBuffer Sample))
  : option Z :=
  option_map (fun p => getNextReadPosition (fst p)) r.

(** A wrapper looping over the samples 2 to 6 of a ramp at one sample a
    second, its cursor at sample 4. *)
Definition loop_2_6_at_4 : LoopingAudioSource Z RampSource :=
  Eval vm_compute in reached (scenario 8 1%float 2%float 6%float 4).

(** A run of [prepareToPlay] calls, each with its expected block size and
    its sample rate. *)
Definition prepareAll {Sample Src : Type}
    {PAS : PositionableAudioSource Sample Src} (silence : Sample)
    (s : LoopingAudioSource Sample Src) (calls : list (Z * float))
  : LoopingAudioSource Sample Src :=
  fold_left (fun st call => prepareToPlay silence st (fst call) (snd call))
    calls s.

(** A wrapper around a ramp, prepared at one sample a second, before any
    loop times are set. *)
Definition prepared_at_1Hz : LoopingAudioSource Z RampSource :=
  prepareToPlay 0 (construct 0 (mkRamp 0) (0%float, 0%float, 0%float))
    512 1%float.

(** The same loop with the cursor left on the loop end, and a loop longer
    than the scratch buffer of a wrapper prepared for 512 samples. *)
Definition loop_2_6_at_6 : LoopingAudioSource Z RampSource :=
  Eval vm_compute in reached (scenario 8 1%float 2%float 6%float 6).

Definition loop_0_2000_at_1900 : LoopingAudioSource Z RampSource :=
  Eval vm_compute in reached (scenario 512 1%float 0%float 2000%float 1900).

(** The inner source reports the position it was last given. *)
Definition position_stored_source {Sample Src : Type}
    {PAS : PositionableAudioSource Sample Src} : Prop :=
  forall (i : Src) (p : Z),
    input_getNextReadPosition (input_setNextReadPosition i p) = p.

(* ================================================================== *)
(** ** Facts on machine integers *)

Module IntFacts.

Lemma wrap64_id (z : Z) : int64_range z -> wrap64 z = z.
Proof.
  unfold int64_range, min_int64, max_int64, wrap64, wrap. intros Hz.
  change (2 ^ (64 - 1)) with 9223372036854775808.
  change (2 ^ 64) with 18446744073709551616.
  change (2 ^ 63) with 9223372036854775808 in Hz.
  rewrite Z.mod_small by lia. lia.
Qed.

Lemma wrap32_id (z : Z) : int32_range z -> wrap32 z = z.
Proof.
  unfold int32_range, min_int32, max_int32, wrap32, wrap. intros Hz.
  change (2 ^ (32 - 1)) with 2147483648.
  change (2 ^ 32) with 4294967296.
  change (2 ^ 31) with 2147483648 in Hz.
  rewrite Z.mod_small by lia. lia.
Qed.

Lemma max_int64_value : max_int64 = 9223372036854775807.
Proof. reflexivity. Qed.

Lemma min_int64_value : min_int64 = -9223372036854775808.
Proof. reflexivity. Qed.

Lemma max_int32_value : max_int32 = 2147483647.
Proof. reflexivity. Qed.

Lemma min_int32_value : min_int32 = -2147483648.
Proof. reflexivity. Qed.

Lemma add64_id (a b : Z) : int64_range (a + b) -> add64 a b = a + b.
Proof. apply wrap64_id. Qed.

Lemma sub64_id (a b : Z) : int64_range (a - b) -> sub64 a b = a - b.
Proof. apply wrap64_id. Qed.

Lemma to_int_id (a : Z) : int32_range a -> to_int a = a.
Proof. apply wrap32_id. Qed.

Lemma rem64_nonneg (a b : Z) :
  0 <= a -> 0 < b -> rem64 a b = Some (a mod b).
Proof.
  intros Ha Hb. unfold rem64.
  destruct (Z.eqb_spec b 0); [lia|].
  destruct (Z.eqb_spec a min_int64) as [E|_].
  - rewrite min_int64_value in E. lia.
  - simpl. now rewrite Z.rem_mod_nonneg by lia.
Qed.

End IntFacts.
Import IntFacts.

(** Bring the bounds of the machine integers into linear form. *)
Ltac int_bounds :=
  unfold int64_range, int32_range in *;
  rewrite ?max_int64_value, ?min_int64_value, ?max_int32_value,
    ?min_int32_value in *.

Ltac int_lia := int_bounds; lia.

(* ================================================================== *)
(** ** Facts on channels and buffers *)

Section BufferFacts.

Context {A : Type}.
Implicit Types (ch vals : list A) (b : AudioSampleBuffer A).

Lemma length_overwrite start vals ch :
  0 <= start -> start + Z.of_nat (length vals) <= Z.of_nat (length ch) ->
  length (overwrite start vals ch) = length ch.
Proof.
  intros H0 H1. unfold overwrite.
  rewrite !length_app, length_firstn, length_skipn. lia.
Qed.

Lemma writeSamples_fits ch start vals :
  0 <= start -> start + Z.of_nat (length vals) <= Z.of_nat (length ch) ->
  writeSamples ch start vals = Some (overwrite start vals ch).
Proof.
  intros H0 H1. unfold writeSamples.
  destruct (Z.leb_spec 0 start); [|lia].
  destruct (Z.leb_spec (start + Z.of_nat (length vals)) (Z.of_nat (length ch)));
    [|lia].
  reflexivity.
Qed.

(** A read of the samples an earlier write put there. *)
Lemma readSamples_prefix vals rest num :
  num = Z.of_nat (length vals) ->
  readSamples (vals ++ rest) 0 num = Some vals.
Proof.
  intros ->. unfold readSamples. rewrite length_app.
  destruct (Z.leb_spec 0 0); [|lia].
  destruct (Z.leb_spec 0 (Z.of_nat (length vals))); [|lia].
  destruct (Z.leb_spec (0 + Z.of_nat (length vals))
              (Z.of_nat (length vals + length rest))); [|lia].
  simpl. rewrite Nat2Z.id.
  rewrite firstn_app, firstn_all, Nat.sub_diag. simpl.
  now rewrite app_nil_r.
Qed.

(** Two writes, one after the other from the start of a channel, leave
    the two runs of samples at its start. *)
Lemma overwrite_twice v1 v2 ch :
  (length v1 + length v2 <= length ch)%nat ->
  overwrite (Z.of_nat (length v1)) v2 (overwrite 0 v1 ch)
  = (v1 ++ v2) ++ skipn (length v1 + length v2) ch.
Proof.
  intros Hlen. unfold overwrite. simpl.
  rewrite Nat2Z.id.
  rewrite firstn_app, firstn_all, Nat.sub_diag. simpl. rewrite app_nil_r.
  rewrite skipn_app.
  replace (length v1 + length v2 - length v1)%nat with (length v2) by lia.
  rewrite (skipn_all2 v1) by lia. simpl.
  rewrite skipn_skipn.
  rewrite <- app_assoc. do 2 f_equal. f_equal. lia.
Qed.

Lemma setChannel_middle (pre post : AudioSampleBuffer A) ch out :
  setChannel (pre ++ ch :: post) (length pre) out = pre ++ out :: post.
Proof. induction pre as [|c pre IH]; simpl; [reflexivity|now rewrite IH]. Qed.

End BufferFacts.

Section CopyFacts.

Context {A : Type}.
Implicit Types (ch vals : list A) (b : AudioSampleBuffer A).

Lemma overwrite_nil start ch :
  0 <= start <= Z.of_nat (length ch) -> overwrite start [] ch = ch.
Proof.
  intros H. unfold overwrite. simpl. rewrite Nat.add_0_r.
  apply firstn_skipn.
Qed.

(** The channel loop copies the same [num] samples into every channel of
    the destination, provided the source has a channel for each. *)
Lemma copyChannels_all (source : AudioSampleBuffer A) vals num start :
  0 < num -> num = Z.of_nat (length vals) -> 0 <= start ->
  Forall (fun src => readSamples src 0 num = Some vals) source ->
  forall post pre,
    (length pre + length post <= length source)%nat ->
    Forall (fun ch => start + num <= Z.of_nat (length ch)) post ->
    copyChannels (pre ++ post) start source num
      (seq (length pre) (length post))
    = Some (pre ++ map (overwrite start vals) post).
Proof.
  intros Hnum Hlen Hstart Hsrc.
  induction post as [|ch post IH]; intros pre Hchans Hfit.
  - simpl. now rewrite !app_nil_r.
  - simpl in *. unfold copyFrom.
    destruct (Z.gtb_spec num 0); [|lia].
    destruct (nth_error source (length pre)) as [src|] eqn:Esrc.
    2:{ apply nth_error_None in Esrc. lia. }
    simpl.
    rewrite nth_error_app2, Nat.sub_diag by lia. simpl.
    rewrite Forall_forall in Hsrc.
    rewrite (Hsrc src (nth_error_In _ _ Esrc)). simpl.
    inversion Hfit as [|? ? Hch Hpost]; subst.
    rewrite writeSamples_fits by lia. simpl.
    rewrite setChannel_middle.
    specialize (IH (pre ++ [overwrite start vals ch])).
    rewrite length_app in IH. simpl in IH.
    rewrite Nat.add_1_r in IH.
    rewrite <- !app_assoc in IH. simpl in IH.
    apply IH; [lia|assumption].
Qed.

End CopyFacts.

(* ================================================================== *)
(** ** Facts on the ramp and on looped positions *)

Section RampFacts.

Lemma length_rampSamples pos num :
  length (rampSamples pos num) = Z.to_nat num.
Proof. unfold rampSamples. now rewrite length_map, length_seq. Qed.

Lemma rampSamples_succ pos (k : nat) :
  rampSamples pos (Z.of_nat (S k)) = pos :: rampSamples (pos + 1) (Z.of_nat k).
Proof.
  unfold rampSamples. rewrite !Nat2Z.id. simpl.
  rewrite Z.add_0_r. f_equal.
  rewrite <- seq_shift, map_map.
  apply map_ext. intros j. lia.
Qed.

Lemma rampSamples_app pos (a b : nat) :
  rampSamples pos (Z.of_nat (a + b))
  = rampSamples pos (Z.of_nat a) ++ rampSamples (pos + Z.of_nat a) (Z.of_nat b).
Proof.
  revert pos. induction a as [|a IH]; intros pos.
  - simpl. f_equal. lia.
  - replace (S a + b)%nat with (S (a + b)) by lia.
    rewrite !rampSamples_succ, IH. simpl. do 3 f_equal. lia.
Qed.

Lemma writeChannels_fits (b : AudioSampleBuffer Z) start vals :
  0 <= start ->
  Forall (fun ch => start + Z.of_nat (length vals) <= Z.of_nat (length ch)) b ->
  writeChannels b start vals = Some (map (overwrite start vals) b).
Proof.
  intros Hstart. induction 1 as [|ch b Hch _ IH]; simpl.
  - reflexivity.
  - now rewrite writeSamples_fits, IH by lia.
Qed.

(** A block request to the ramp. *)
Lemma ramp_read (r : RampSource) (b : AudioSampleBuffer Z) start num :
  0 <= num -> 0 <= start ->
  Forall (fun ch => start + num <= Z.of_nat (length ch)) b ->
  int64_range (nextPlayPos r + num) ->
  ramp_getNextAudioBlock r (mkInfo b start num)
  = Some (mkRamp (nextPlayPos r + num),
          map (overwrite start (rampSamples (nextPlayPos r) num)) b).
Proof.
  intros Hnum Hstart Hfit Hrange. unfold ramp_getNextAudioBlock. simpl.
  destruct (Z.gtb_spec num 0).
  - rewrite writeChannels_fits.
    + simpl. now rewrite add64_id.
    + assumption.
    + rewrite length_rampSamples, Z2Nat.id by lia. assumption.
  - assert (num = 0) as -> by lia.
    rewrite Z.add_0_r. destruct r as [p]. simpl. do 2 f_equal.
    rewrite <- (map_id b) at 1. apply map_ext_Forall.
    eapply Forall_impl; [|exact Hfit]. simpl. intros ch Hch.
    unfold rampSamples. simpl. symmetry. apply overwrite_nil. lia.
Qed.

Variables (loopStart loopEnd : Z).

Lemma loopPositions_inside p (k : nat) :
  p + Z.of_nat k <= loopEnd ->
  loopPositions loopStart loopEnd p k = rampSamples p (Z.of_nat k).
Proof.
  revert p. induction k as [|k IH]; intros p Hp.
  - reflexivity.
  - rewrite rampSamples_succ. simpl. f_equal.
    destruct k as [|k]; [reflexivity|].
    unfold loopNext. destruct (Z.ltb_spec (p + 1) loopEnd); [|lia].
    apply IH. lia.
Qed.

Lemma loopAdvance_inside p (k : nat) :
  p + Z.of_nat k < loopEnd ->
  loopAdvance loopStart loopEnd p k = p + Z.of_nat k.
Proof.
  revert p. induction k as [|k IH]; intros p Hp; simpl.
  - lia.
  - unfold loopNext. destruct (Z.ltb_spec (p + 1) loopEnd); [|lia].
    rewrite IH; lia.
Qed.

Lemma loopAdvance_seam p (k : nat) :
  (0 < k)%nat -> p + Z.of_nat k = loopEnd ->
  loopAdvance loopStart loopEnd p k = loopStart.
Proof.
  revert p. induction k as [|k IH]; intros p Hk Hp; [lia|]. simpl.
  unfold loopNext. destruct (Z.ltb_spec (p + 1) loopEnd).
  - apply IH; lia.
  - assert (k = 0%nat) as -> by lia. reflexivity.
Qed.

Lemma loopPositions_app p (a b : nat) :
  loopPositions loopStart loopEnd p (a + b)
  = loopPositions loopStart loopEnd p a
    ++ loopPositions loopStart loopEnd (loopAdvance loopStart loopEnd p a) b.
Proof.
  revert p. induction a as [|a IH]; intros p; simpl; [reflexivity|].
  now rewrite IH.
Qed.

Lemma loopAdvance_add p (a b : nat) :
  loopAdvance loopStart loopEnd p (a + b)
  = loopAdvance loopStart loopEnd (loopAdvance loopStart loopEnd p a) b.
Proof.
  revert p. induction a as [|a IH]; intros p; simpl; [reflexivity|].
  now rewrite IH.
Qed.

Lemma length_loopPositions p (k : nat) :
  length (loopPositions loopStart loopEnd p k) = k.
Proof. revert p. induction k as [|k IH]; intros p; simpl; [|rewrite IH]; reflexivity. Qed.

Lemma loopNext_in_region p :
  loopStart < loopEnd -> loopStart <= p < loopEnd ->
  loopStart <= loopNext loopStart loopEnd p < loopEnd.
Proof. intros Hlt Hp. unfold loopNext. destruct (Z.ltb_spec (p + 1) loopEnd); lia. Qed.

Lemma loopAdvance_in_region p (k : nat) :
  loopStart < loopEnd -> loopStart <= p < loopEnd ->
  loopStart <= loopAdvance loopStart loopEnd p k < loopEnd.
Proof.
  intros Hlt. revert p. induction k as [|k IH]; intros p Hp; simpl.
  - assumption.
  - apply IH. now apply loopNext_in_region.
Qed.

(** The looped positions are gapless in the sense of the spec. *)
Lemma gapless_loopPositions p (k : nat) :
  loopStart < loopEnd -> loopStart <= p < loopEnd ->
  gapless loopStart loopEnd (loopPositions loopStart loopEnd p k).
Proof.
  intros Hlt. revert p. induction k as [|k IH]; intros p Hp; [exact I|].
  destruct k as [|k]; [exact I|].
  change (loopPositions loopStart loopEnd p (S (S k)))
    with (p :: loopPositions loopStart loopEnd (loopNext loopStart loopEnd p) (S k)).
  specialize (IH _ (loopNext_in_region Hlt Hp)).
  simpl in *. split; [|exact IH].
  unfold loopNext.
  destruct (Z.eqb_spec p (loopEnd - 1)), (Z.ltb_spec (p + 1) loopEnd); lia.
Qed.

(** A block of [num] looped positions, by the two cases of the split. *)
Lemma loopPositions_block p num :
  loopStart <= p < loopEnd -> 0 < num <= loopEnd - loopStart ->
  loopPositions loopStart loopEnd p (Z.to_nat num)
  = if p + num <? loopEnd then rampSamples p num
    else rampSamples p (loopEnd - p)
         ++ rampSamples loopStart (p + num - loopEnd).
Proof.
  intros Hp Hnum. destruct (Z.ltb_spec (p + num) loopEnd).
  - rewrite loopPositions_inside by lia. now rewrite Z2Nat.id by lia.
  - replace (Z.to_nat num)
      with (Z.to_nat (loopEnd - p) + Z.to_nat (p + num - loopEnd))%nat by lia.
    rewrite loopPositions_app.
    rewrite loopAdvance_seam by lia.
    rewrite !loopPositions_inside by lia.
    now rewrite !Z2Nat.id by lia.
Qed.

Lemma loopAdvance_block p num :
  loopStart <= p < loopEnd -> 0 < num <= loopEnd - loopStart ->
  loopAdvance loopStart loopEnd p (Z.to_nat num)
  = if p + num <? loopEnd then p + num
    else loopStart + (p + num - loopEnd).
Proof.
  intros Hp Hnum. destruct (Z.ltb_spec (p + num) loopEnd).
  - rewrite loopAdvance_inside by lia. lia.
  - replace (Z.to_nat num)
      with (Z.to_nat (loopEnd - p) + Z.to_nat (p + num - loopEnd))%nat by lia.
    rewrite loopAdvance_add.
    rewrite (@loopAdvance_seam p (Z.to_nat (loopEnd - p))) by lia.
    destruct (Z.eq_dec (p + num) loopEnd) as [E|E].
    + replace (p + num - loopEnd) with 0 by lia. simpl. lia.
    + rewrite loopAdvance_inside by lia. lia.
Qed.

End RampFacts.
(* ================================================================== *)
(** ** The two branches of [getNextAudioBlock] over a ramp *)

Section RampLooping.

Implicit Types (s : LoopingAudioSource Z RampSource)
  (info : AudioSourceChannelInfo Z).

Lemma with_input_same {Sample Src : Type}
    (s : LoopingAudioSource Sample Src) :
  with_input s (input s) = s.
Proof. now destruct s. Qed.

(** The block does not reach the loop end: one read, straight into the
    caller's buffer. *)
Lemma getNextAudioBlock_through s info newEnd :
  isLoopingBetweenTimes s = true ->
  0 < numSamples info ->
  newEnd_of s (getNextReadPosition s) (numSamples info) = Some newEnd ->
  getNextReadPosition s < newEnd ->
  destination_ready info ->
  int64_range (getNextReadPosition s + numSamples info) ->
  getNextAudioBlock s info
  = Some (with_input s (mkRamp (getNextReadPosition s + numSamples info)),
          map (overwrite (startSample info)
                 (rampSamples (getNextReadPosition s) (numSamples info)))
            (buffer info)).
Proof.
  intros Hloop Hnum Hend Hgt [Hstart Hfit] Hrange.
  destruct info as [b start num].
  unfold getNextAudioBlock, getNextReadPosition in *. simpl in *.
  set (c := nextPlayPos (input s)) in *.
  destruct (Z.gtb_spec num 0); [|lia].
  rewrite Hloop, Hend. simpl.
  destruct (Z.gtb_spec newEnd c); [|lia].
  unfold c. rewrite ramp_read by (assumption || lia). reflexivity.
Qed.

(** The block reaches the loop end: two reads into the scratch buffer,
    then the copy to the caller's buffer. *)
Lemma getNextAudioBlock_split s info cap newEnd :
  isLoopingBetweenTimes s = true ->
  0 < numSamples info ->
  newEnd_of s (getNextReadPosition s) (numSamples info) = Some newEnd ->
  newEnd <= getNextReadPosition s ->
  0 <= loopEndSample s - getNextReadPosition s ->
  0 <= newEnd - loopStartSample s ->
  (loopEndSample s - getNextReadPosition s) + (newEnd - loopStartSample s)
  = numSamples info ->
  int64_range (loopEndSample s) -> int64_range newEnd ->
  request_fits s info cap ->
  exists s',
    getNextAudioBlock s info
    = Some (s',
            map (overwrite (startSample info)
                   (rampSamples (getNextReadPosition s)
                      (loopEndSample s - getNextReadPosition s)
                    ++ rampSamples (loopStartSample s)
                         (newEnd - loopStartSample s)))
              (buffer info))
    /\ getNextReadPosition s' = newEnd
    /\ isLoopingBetweenTimes s' = true
    /\ loopStartSample s' = loopStartSample s
    /\ loopEndSample s' = loopEndSample s
    /\ scratch_ready s' cap.
Proof.
  intros Hloop Hnum Hend Hle Hm1 Hm2 Hsum Hrle Hrend
    (Hscratch & Hcap & Hint & Hchans & Hstart & Hfit).
  destruct Hscratch as [Htwo Hsize].
  destruct info as [b start num].
  unfold getNextAudioBlock, getNextReadPosition, scratch_ready in *.
  simpl in *.
  remember (nextPlayPos (input s)) as c eqn:Ec.
  remember (loopEndSample s - c) as m1 eqn:Em1.
  remember (newEnd - loopStartSample s) as m2 eqn:Em2.
  destruct (Z.gtb_spec num 0); [|lia].
  rewrite Hloop, Hend. simpl.
  destruct (Z.gtb_spec newEnd c); [lia|].
  unfold numEndSamps_of, numStartSamps_of.
  rewrite !sub64_id by int_lia.
  rewrite <- Em1, <- Em2.
  rewrite !to_int_id by int_lia.
  set (v1 := rampSamples c m1).
  set (v2 := rampSamples (loopStartSample s) m2).
  assert (Hl1 : Z.of_nat (length v1) = m1)
    by (unfold v1; rewrite length_rampSamples; lia).
  assert (Hl2 : Z.of_nat (length v2) = m2)
    by (unfold v2; rewrite length_rampSamples; lia).
  (* first read, up to the loop end *)
  rewrite ramp_read; rewrite <- ?Ec; fold v1.
  2: lia. 2: lia.
  2:{ eapply Forall_impl; [|exact Hsize]. simpl. intros ch Hch. lia. }
  2:{ replace (c + m1) with (loopEndSample s) by lia. assumption. }
  simpl.
  (* second read, from the loop start *)
  rewrite ramp_read; simpl; fold v2.
  2: lia. 2: lia.
  2:{ rewrite Forall_map. eapply Forall_impl; [|exact Hsize]. simpl.
      intros ch Hch. rewrite length_overwrite; lia. }
  2:{ replace (loopStartSample s + m2) with newEnd by lia. assumption. }
  assert (Htemp :
    map (overwrite m1 v2) (map (overwrite 0 v1) (tempBuffer s))
    = map (fun ch => (v1 ++ v2) ++ skipn (length v1 + length v2) ch)
        (tempBuffer s)).
  { rewrite map_map. apply map_ext_Forall.
    eapply Forall_impl; [|exact Hsize]. simpl. intros ch Hch.
    rewrite <- Hl1. apply overwrite_twice. lia. }
  rewrite Htemp. unfold getNumChannels. rewrite Nat2Z.id.
  (* the copy to the caller's buffer *)
  assert (Hcopy :
    copyChannels b start
      (map (fun ch => (v1 ++ v2) ++ skipn (length v1 + length v2) ch)
         (tempBuffer s)) num (seq 0 (length b))
    = Some (map (overwrite start (v1 ++ v2)) b)).
  { apply (@copyChannels_all Z _ (v1 ++ v2) num start) with (pre := []).
    - lia.
    - rewrite length_app. lia.
    - assumption.
    - rewrite Forall_map. rewrite Forall_forall. intros ch _.
      apply readSamples_prefix. rewrite length_app. lia.
    - rewrite length_map. simpl. lia.
    - assumption. }
  rewrite Hcopy. simpl.
  eexists. split; [reflexivity|]. simpl.
  repeat split.
  - lia.
  - rewrite length_map. assumption.
  - rewrite Forall_map. eapply Forall_impl; [|exact Hsize]. simpl.
    intros ch Hch. rewrite !length_app, length_skipn. lia.
Qed.

End RampLooping.

(* ================================================================== *)
(** ** Where the block ends: [newEnd] *)

Section NewEnd.

Context {Sample Src : Type} {PAS : PositionableAudioSource Sample Src}.
Implicit Types (s : LoopingAudioSource Sample Src).

(** The block stays below the loop end. *)
Lemma newEnd_of_inside s c num :
  valid_region s -> loopStartSample s <= c -> 0 < num ->
  c + num < loopEndSample s ->
  newEnd_of s c num = Some (loopStartSample s + c + num).
Proof.
  intros [Hreg Hroom] Hc Hnum Hin. unfold newEnd_of.
  rewrite add64_id by int_lia.
  rewrite rem64_nonneg by lia. simpl.
  rewrite Z.mod_small by lia.
  rewrite add64_id by int_lia. f_equal. lia.
Qed.

(** The block reaches the loop end or passes it, by less than one loop. *)
Lemma newEnd_of_crossing s c num :
  valid_region s -> loopStartSample s <= c < loopEndSample s ->
  0 < num <= loopEndSample s - loopStartSample s ->
  loopEndSample s <= c + num ->
  newEnd_of s c num = Some (loopStartSample s + (c + num - loopEndSample s)).
Proof.
  intros [Hreg Hroom] Hc Hnum Hout. unfold newEnd_of.
  rewrite add64_id by int_lia.
  rewrite rem64_nonneg by lia. simpl.
  assert ((c + num) mod loopEndSample s = c + num - loopEndSample s) as ->.
  { symmetry. apply Z.mod_unique with 1; lia. }
  rewrite add64_id by int_lia. reflexivity.
Qed.

(** The last sample of the block is the last of the loop. *)
Lemma newEnd_of_touching s c num :
  bounds_in_range s -> loopEndSample s <> 0 ->
  c + num = loopEndSample s ->
  newEnd_of s c num = Some (loopStartSample s).
Proof.
  intros [Hrs Hre] Hnz Hsum. unfold newEnd_of.
  rewrite add64_id by (rewrite Hsum; assumption).
  rewrite Hsum. unfold rem64.
  destruct (Z.eqb_spec (loopEndSample s) 0); [contradiction|].
  destruct (Z.eqb_spec (loopEndSample s) min_int64) as [E|_];
    destruct (Z.eqb_spec (loopEndSample s) (-1)) as [E'|_]; simpl;
    try (rewrite E in E'; discriminate E').
  all: rewrite Z.rem_same by assumption.
  all: rewrite add64_id by (rewrite Z.add_0_r; assumption).
  all: now rewrite Z.add_0_r.
Qed.

End NewEnd.

(* ================================================================== *)
(** ** One looped block over a ramp *)

Section RampBlock.

Implicit Types (s : LoopingAudioSource Z RampSource)
  (info : AudioSourceChannelInfo Z).

(** With a valid region, the cursor in it and a block no longer than the
    loop, the block holds the looped positions that follow the cursor, and
    the call leaves every condition in place for the next one. *)
Lemma getNextAudioBlock_looped s info cap :
  isLoopingBetweenTimes s = true ->
  valid_region s -> cursor_in_region s ->
  0 < numSamples info <= loopEndSample s - loopStartSample s ->
  request_fits s info cap ->
  exists s',
    getNextAudioBlock s info
    = Some (s',
            map (overwrite (startSample info)
                   (loopPositions (loopStartSample s) (loopEndSample s)
                      (getNextReadPosition s) (Z.to_nat (numSamples info))))
              (buffer info))
    /\ getNextReadPosition s'
       = loopAdvance (loopStartSample s) (loopEndSample s)
           (getNextReadPosition s) (Z.to_nat (numSamples info))
    /\ isLoopingBetweenTimes s' = true
    /\ loopStartSample s' = loopStartSample s
    /\ loopEndSample s' = loopEndSample s
    /\ scratch_ready s' cap.
Proof.
  intros Hloop Hreg Hcur Hnum Hfit.
  pose proof Hreg as [Hbounds Hroom].
  unfold cursor_in_region in Hcur.
  rewrite loopPositions_block, loopAdvance_block by lia.
  destruct (Z.ltb_spec (getNextReadPosition s + numSamples info)
              (loopEndSample s)) as [Hin|Hout].
  - exists (with_input s
              (mkRamp (getNextReadPosition s + numSamples info))).
    destruct Hfit as (Hscratch & _ & _ & _ & Hdest).
    split; [|repeat split; try assumption; apply Hscratch].
    apply getNextAudioBlock_through
      with (newEnd := loopStartSample s + getNextReadPosition s
                      + numSamples info);
      try assumption; try lia.
    + apply newEnd_of_inside; (assumption || lia).
    + int_lia.
  - destruct (@getNextAudioBlock_split s info cap
                (loopStartSample s
                 + (getNextReadPosition s + numSamples info - loopEndSample s)))
      as (s' & Hrun & Hpos & Hrest); try assumption; try lia; try int_lia.
    + apply newEnd_of_crossing; (assumption || lia).
    + exists s'. split; [|split; assumption].
      replace (loopStartSample s
               + (getNextReadPosition s + numSamples info - loopEndSample s)
               - loopStartSample s)
        with (getNextReadPosition s + numSamples info - loopEndSample s)
        in Hrun by lia.
      exact Hrun.
Qed.

End RampBlock.

(* ================================================================== *)
(** ** Successive blocks *)

Section Streams.

Implicit Types (s : LoopingAudioSource Z RampSource).

Lemma fresh_destination_ready nch num :
  0 <= num ->
  destination_ready (mkInfo (makeBuffer 0 nch num) 0 num).
Proof.
  intros Hnum. split; simpl; [lia|].
  unfold makeBuffer. apply Forall_forall. intros ch Hch.
  apply repeat_spec in Hch. subst ch. rewrite repeat_length. lia.
Qed.

Lemma fresh_channel_filled (vals : list Z) nch num (ch : nat) :
  (ch < Z.to_nat nch)%nat -> length vals = Z.to_nat num ->
  nth ch (map (overwrite 0 vals) (makeBuffer 0 nch num)) [] = vals.
Proof.
  intros Hch Hlen. unfold makeBuffer. rewrite map_repeat.
  apply nth_error_nth. rewrite nth_error_repeat by assumption. f_equal.
  unfold overwrite. simpl.
  rewrite skipn_all2 by (rewrite repeat_length; lia).
  apply app_nil_r.
Qed.

Lemma produceBlocks_looped sizes : forall s cap nch,
  isLoopingBetweenTimes s = true ->
  valid_region s -> cursor_in_region s -> scratch_ready s cap ->
  0 <= nch <= 2 ->
  Forall (block_size_ok (loopStartSample s) (loopEndSample s) cap) sizes ->
  exists s' outs,
    produceBlocks 0 s nch sizes = Some (s', outs)
    /\ (forall ch, (ch < Z.to_nat nch)%nat ->
          channelStream outs ch
          = loopPositions (loopStartSample s) (loopEndSample s)
              (getNextReadPosition s) (totalSamples sizes))
    /\ getNextReadPosition s'
       = loopAdvance (loopStartSample s) (loopEndSample s)
           (getNextReadPosition s) (totalSamples sizes).
Proof.
  induction sizes as [|n sizes IH];
    intros s cap nch Hloop Hreg Hcur Hscratch Hnch Hsizes.
  - exists s, []. simpl. repeat split.
  - inversion Hsizes as [|? ? (Hn & Hcap & Hint) Hrest]; subst.
    destruct (@getNextAudioBlock_looped s
                (mkInfo (makeBuffer 0 nch n) 0 n) cap)
      as (s1 & Hrun & Hpos & Hloop1 & Hls & Hle & Hscratch1);
      try assumption.
    { split; [assumption|]. split; [simpl; lia|]. split; [simpl; lia|].
      split.
      - simpl. unfold makeBuffer. rewrite repeat_length. lia.
      - apply fresh_destination_ready. lia. }
    cbn [startSample numSamples buffer] in Hrun, Hpos.
    destruct (IH s1 cap nch) as (s2 & outs & Hruns & Hstream & Hpos2);
      try assumption.
    { destruct Hreg as [Hb Hr]. split; rewrite ?Hls, ?Hle; assumption. }
    { unfold cursor_in_region. rewrite Hls, Hle, Hpos.
      apply loopAdvance_in_region; [apply Hreg|exact Hcur]. }
    { rewrite Hls, Hle. assumption. }
    exists s2, (map (overwrite 0
                       (loopPositions (loopStartSample s) (loopEndSample s)
                          (getNextReadPosition s) (Z.to_nat n)))
                  (makeBuffer 0 nch n) :: outs).
    split.
    { cbn [produceBlocks]. rewrite Hrun. cbn [bind]. rewrite Hruns.
      reflexivity. }
    unfold totalSamples in *. cbn [map list_sum fold_right].
    rewrite Hls, Hle, Hpos in *.
    split.
    + intros ch Hch. unfold channelStream in *. cbn [map concat].
      rewrite fresh_channel_filled
        by (assumption || (rewrite length_loopPositions; reflexivity)).
      rewrite (Hstream ch Hch). symmetry. apply loopPositions_app.
    + rewrite Hpos2. symmetry. apply loopAdvance_add.
Qed.

End Streams.

(* ================================================================== *)
(** ** The claims on block production *)

Section BlockClaims.

Implicit Types (s : LoopingAudioSource Z RampSource)
  (info : AudioSourceChannelInfo Z).

(** C1, as stated, fails: a loop over the samples 2 to 4 (times 2 s and
    4 s at one sample a second), the cursor at its start, and one block of
    3 samples. The modulo is taken by [loopEndSample], so [newEnd] is
    2 + (5 mod 4) = 3 > 2 and the block is read straight through: the
    output runs 2, 3, 4, past the seam, where 3 should be followed by 2. *)
Lemma C1_counterexample_block_longer_than_loop :
  let s := reached (scenario 512 1%float 2%float 4%float 2) in
  scenario 512 1%float 2%float 4%float 2 = Some s
  /\ setLoopTimes_asserts 2%float 4%float = true
  /\ isLoopingBetweenTimes s = true
  /\ loopStartSample s = 2 /\ loopEndSample s = 4
  /\ getNextReadPosition s = 2
  /\ option_map snd (produceBlocks 0 s 2 [3])
     = Some [[[2; 3; 4]; [2; 3; 4]]]
  /\ ~ gapless 2 4 [2; 3; 4].
Proof.
  cbv zeta. repeat split; try (vm_compute; reflexivity).
  simpl. intros [_ [H _]]. discriminate H.
Qed.

(** C1 (amended). Over a ramp, with looping enabled, sample bounds
    0 <= loopStartSample < loopEndSample (below 2^62), the cursor in
    [[loopStartSample, loopEndSample)], and blocks that are positive, no
    longer than the loop and no longer than the scratch buffer: successive
    calls succeed, and in every channel the concatenation of their outputs
    is the run of looped positions that starts at the cursor, so no sample
    is skipped or duplicated, and [loopEndSample - 1] is followed by
    [loopStartSample]. *)
Theorem C1_looped_stream_is_gapless s (cap nch : Z) (sizes : list Z) :
  isLoopingBetweenTimes s = true ->
  valid_region s -> cursor_in_region s -> scratch_ready s cap ->
  0 <= nch <= 2 ->
  Forall (block_size_ok (loopStartSample s) (loopEndSample s) cap) sizes ->
  exists s' outs,
    produceBlocks 0 s nch sizes = Some (s', outs)
    /\ forall ch, (ch < Z.to_nat nch)%nat ->
         channelStream outs ch
         = loopPositions (loopStartSample s) (loopEndSample s)
             (getNextReadPosition s) (totalSamples sizes)
         /\ gapless (loopStartSample s) (loopEndSample s)
              (channelStream outs ch).
Proof.
  intros Hloop Hreg Hcur Hscratch Hnch Hsizes.
  destruct (@produceBlocks_looped sizes s cap nch)
    as (s' & outs & Hrun & Hstream & _); try assumption.
  exists s', outs. split; [exact Hrun|].
  intros ch Hch. rewrite (Hstream ch Hch). split; [reflexivity|].
  apply gapless_loopPositions; [apply Hreg|exact Hcur].
Qed.

(** C1 (amended) at a concrete input: the loop 2 to 6 from the cursor 4,
    in blocks of 3, 4 and 1 samples. *)
Lemma C1_looped_stream_witness :
  exists s' outs,
    produceBlocks 0 loop_2_6_at_4 2 [3; 4; 1] = Some (s', outs)
    /\ forall ch, (ch < 2)%nat ->
         channelStream outs ch = [4; 5; 2; 3; 4; 5; 2; 3]
         /\ gapless 2 6 (channelStream outs ch).
Proof.
  apply (@C1_looped_stream_is_gapless loop_2_6_at_4 512 2 [3; 4; 1]).
  - reflexivity.
  - unfold valid_region. simpl. int_lia.
  - unfold cursor_in_region. simpl. lia.
  - split; [reflexivity|]. repeat constructor.
  - lia.
  - repeat constructor; simpl; int_lia.
Defined.

(** C2. The scenario of the spec: sample rate 44100, loop times 10 s and
    20 s (samples 441000 and 882000), looping enabled, the cursor at
    881500, and a request of 1000 samples. The first 500 slots of each
    channel hold the positions 881500 to 881999, the next 500 the positions
    441000 to 441499, and the cursor ends at 441500. *)
Theorem C2_block_across_the_seam :
  let s := reached (scenario 1000 44100%float 10%float 20%float 881500) in
  let r := getNextAudioBlock s (mkInfo (makeBuffer 0 2 1000) 0 1000) in
  scenario 1000 44100%float 10%float 20%float 881500 = Some s
  /\ isLoopingBetweenTimes s = true
  /\ loopStartSample s = 441000 /\ loopEndSample s = 882000
  /\ getNextReadPosition s = 881500
  /\ outputOf r
     = Some (repeat (rampSamples 881500 500 ++ rampSamples 441000 500) 2)
  /\ hd_error (rampSamples 881500 500) = Some 881500
  /\ last (rampSamples 881500 500) 0 = 881999
  /\ hd_error (rampSamples 441000 500) = Some 441000
  /\ last (rampSamples 441000 500) 0 = 441499
  /\ cursorAfter r = Some 441500.
Proof.
  cbv zeta. repeat split; vm_compute; reflexivity.
Qed.

(** C6. Looping enabled, the cursor at [newStart] in the region, and a
    request of exactly [loopEndSample - newStart] samples: [newEnd] is
    [loopStartSample], the comparison [newEnd > newStart] is false, the
    split is performed, the output holds the positions from [newStart] up
    to the loop end, and the cursor is left at [loopStartSample]. *)
Theorem C6_block_touching_the_loop_end s info (cap : Z) :
  isLoopingBetweenTimes s = true ->
  bounds_in_range s -> loopEndSample s <> 0 ->
  cursor_in_region s ->
  numSamples info = loopEndSample s - getNextReadPosition s ->
  request_fits s info cap ->
  newEnd_of s (getNextReadPosition s) (numSamples info)
  = Some (loopStartSample s)
  /\ (loopStartSample s >? getNextReadPosition s) = false
  /\ outputOf (getNextAudioBlock s info)
     = Some (map (overwrite (startSample info)
                    (rampSamples (getNextReadPosition s) (numSamples info)))
               (buffer info))
  /\ cursorAfter (getNextAudioBlock s info) = Some (loopStartSample s).
Proof.
  intros Hloop Hrange Hnz Hcur Hnum Hfit.
  unfold cursor_in_region in Hcur.
  assert (Hend : newEnd_of s (getNextReadPosition s) (numSamples info)
                 = Some (loopStartSample s))
    by (apply newEnd_of_touching; (assumption || lia)).
  split; [exact Hend|].
  split; [destruct (Z.gtb_spec (loopStartSample s) (getNextReadPosition s));
          [lia|reflexivity]|].
  destruct (@getNextAudioBlock_split s info cap (loopStartSample s))
    as (s' & Hrun & Hpos & _);
    try assumption; try lia; try apply Hrange.
  rewrite Hrun. unfold outputOf, cursorAfter. cbn [option_map fst snd].
  rewrite Hpos. split; [|reflexivity].
  rewrite Z.sub_diag, <- Hnum.
  change (rampSamples (loopStartSample s) 0) with (@nil Z).
  now rewrite app_nil_r.
Qed.

(** C6 at a concrete input: the loop 2 to 6, the cursor at 4, a block of
    2 samples. *)
Lemma C6_block_touching_witness :
  newEnd_of loop_2_6_at_4 4 2 = Some 2
  /\ (2 >? 4) = false
  /\ outputOf (getNextAudioBlock loop_2_6_at_4
                 (mkInfo (makeBuffer 0 2 2) 0 2))
     = Some [[4; 5]; [4; 5]]
  /\ cursorAfter (getNextAudioBlock loop_2_6_at_4
                    (mkInfo (makeBuffer 0 2 2) 0 2))
     = Some 2.
Proof.
  apply (@C6_block_touching_the_loop_end loop_2_6_at_4
           (mkInfo (makeBuffer 0 2 2) 0 2) 512).
  - reflexivity.
  - split; simpl; int_lia.
  - simpl. lia.
  - unfold cursor_in_region. simpl. lia.
  - reflexivity.
  - split; [split; [reflexivity|repeat constructor]|].
    split; [simpl; lia|]. split; [simpl; int_lia|]. split; [simpl; lia|].
    apply fresh_destination_ready. lia.
Defined.

(** C10. In the branch that splits the block, with
    0 <= loopStartSample < loopEndSample (and loopEndSample below 2^62, so
    that the [int64] sums do not overflow), the cursor in
    [[loopStartSample, loopEndSample)] and 0 < numSamples <= loop length:
    the two lengths are not negative and add up to [numSamples]; and when
    the request fits the buffers, both reads are asked for exactly these
    counts, the output holds the two runs one after the other, and the
    cursor ends at [loopStartSample + numStartSamps]. *)
Theorem C10_split_lengths s info (cap newEnd : Z) :
  isLoopingBetweenTimes s = true ->
  valid_region s -> cursor_in_region s ->
  0 < numSamples info <= loopEndSample s - loopStartSample s ->
  newEnd_of s (getNextReadPosition s) (numSamples info) = Some newEnd ->
  (newEnd >? getNextReadPosition s) = false ->
  let numEndSamps := numEndSamps_of s (getNextReadPosition s) in
  let numStartSamps := numStartSamps_of s newEnd in
  0 <= numEndSamps /\ 0 <= numStartSamps
  /\ numEndSamps + numStartSamps = numSamples info
  /\ (request_fits s info cap ->
      to_int numEndSamps = numEndSamps
      /\ to_int numStartSamps = numStartSamps
      /\ outputOf (getNextAudioBlock s info)
         = Some (map (overwrite (startSample info)
                        (rampSamples (getNextReadPosition s) numEndSamps
                         ++ rampSamples (loopStartSample s) numStartSamps))
                   (buffer info))
      /\ cursorAfter (getNextAudioBlock s info)
         = Some (loopStartSample s + numStartSamps)).
Proof.
  intros Hloop Hreg Hcur Hnum Hend Hbranch.
  pose proof Hreg as [Hbounds Hroom].
  unfold cursor_in_region in Hcur.
  destruct (Z.gtb_spec newEnd (getNextReadPosition s)) as [|Hle];
    [discriminate|].
  assert (Hout : loopEndSample s <= getNextReadPosition s + numSamples info).
  { destruct (Z.lt_ge_cases (getNextReadPosition s + numSamples info)
                (loopEndSample s)) as [Hin|]; [|assumption].
    pose proof (newEnd_of_inside Hreg (proj1 Hcur) (proj1 Hnum) Hin)
      as Hinside.
    assert (newEnd = loopStartSample s + getNextReadPosition s
                     + numSamples info) by congruence.
    lia. }
  pose proof (newEnd_of_crossing Hreg Hcur Hnum Hout) as Hcross.
  assert (Enew : newEnd = loopStartSample s
                          + (getNextReadPosition s + numSamples info
                             - loopEndSample s)) by congruence.
  unfold numEndSamps_of, numStartSamps_of. cbv zeta.
  rewrite !sub64_id by int_lia.
  split; [lia|]. split; [lia|]. split; [lia|].
  intros Hfit.
  pose proof Hfit as (_ & _ & Hint & _).
  rewrite !to_int_id by int_lia.
  split; [reflexivity|]. split; [reflexivity|].
  destruct (@getNextAudioBlock_split s info cap newEnd)
    as (s' & Hrun & Hpos & _); try assumption; try lia; try int_lia.
  rewrite Hrun. unfold outputOf, cursorAfter. cbn [option_map fst snd].
  rewrite Hpos. split; [reflexivity|]. f_equal. lia.
Qed.

(** C10 at a concrete input: the loop 2 to 6, the cursor at 4, a block
    of 3 samples, split into 2 and 1. *)
Lemma C10_split_lengths_witness :
  newEnd_of loop_2_6_at_4 4 3 = Some 3
  /\ numEndSamps_of loop_2_6_at_4 4 = 2
  /\ numStartSamps_of loop_2_6_at_4 3 = 1
  /\ 2 + 1 = 3
  /\ outputOf (getNextAudioBlock loop_2_6_at_4
                 (mkInfo (makeBuffer 0 2 3) 0 3))
     = Some [[4; 5; 2]; [4; 5; 2]]
  /\ cursorAfter (getNextAudioBlock loop_2_6_at_4
                    (mkInfo (makeBuffer 0 2 3) 0 3))
     = Some (2 + 1).
Proof.
  destruct (@C10_split_lengths loop_2_6_at_4
              (mkInfo (makeBuffer 0 2 3) 0 3) 512 3)
    as (_ & _ & Hsum & Hrun).
  - reflexivity.
  - unfold valid_region. simpl. int_lia.
  - unfold cursor_in_region. simpl. lia.
  - simpl. lia.
  - reflexivity.
  - reflexivity.
  - destruct Hrun as (_ & _ & Hout & Hpos).
    + split; [split; [reflexivity|repeat constructor]|].
      split; [simpl; lia|]. split; [simpl; int_lia|]. split; [simpl; lia|].
      apply fresh_destination_ready. lia.
    + split; [reflexivity|]. split; [reflexivity|]. split; [reflexivity|].
      split; [exact Hsum|]. split; [exact Hout|exact Hpos].
Defined.

End BlockClaims.

(* ================================================================== *)
(** ** Loop times and read position *)

Section PositionFacts.

Context {Sample Src : Type} {PAS : PositionableAudioSource Sample Src}.
Implicit Types (s : LoopingAudioSource Sample Src).

(** The current position is never rewritten: inside the region it is
    neither above the loop end nor below the loop start. *)
Lemma wrappedPosition_current s :
  wrappedPosition s (getNextReadPosition s) = Some (getNextReadPosition s).
Proof.
  unfold wrappedPosition.
  destruct (isLoopingBetweenTimes s); simpl; [|reflexivity].
  destruct (Z.gtb_spec (getNextReadPosition s) (loopStartSample s));
    simpl; [|reflexivity].
  destruct (Z.ltb_spec (getNextReadPosition s) (loopEndSample s));
    simpl; [|reflexivity].
  destruct (Z.gtb_spec (getNextReadPosition s) (loopEndSample s)); [lia|].
  destruct (Z.ltb_spec (getNextReadPosition s) (loopStartSample s)); [lia|].
  reflexivity.
Qed.

(** What [setLoopTimes] does, whatever the two times are. *)
Lemma setLoopTimes_effect s startTime endTime :
  setLoopTimes s startTime endTime
  = Some (mkLoopingAudioSource
            (input_setNextReadPosition (input s)
               (input_getNextReadPosition (input s)))
            (isLoopingBetweenTimes s) startTime endTime
            (double_to_int64 (PrimFloat.mul startTime (currentSampleRate s)))
            (double_to_int64 (PrimFloat.mul endTime (currentSampleRate s)))
            (currentSampleRate s) (tempBuffer s) (tempInfo_startSample s)
            (tempInfo_numSamples s)).
Proof.
  unfold setLoopTimes, jassert, setNextReadPosition.
  rewrite wrappedPosition_current. reflexivity.
Qed.

(** The guard of [setNextReadPosition] is off. *)
Lemma wrappedPosition_unguarded s newPosition :
  ~ (isLoopingBetweenTimes s = true
     /\ loopStartSample s < getNextReadPosition s < loopEndSample s) ->
  wrappedPosition s newPosition = Some newPosition.
Proof.
  intros Hoff. unfold wrappedPosition.
  destruct (isLoopingBetweenTimes s); simpl; [|reflexivity].
  destruct (Z.gtb_spec (getNextReadPosition s) (loopStartSample s));
    simpl; [|reflexivity].
  destruct (Z.ltb_spec (getNextReadPosition s) (loopEndSample s));
    simpl; [|reflexivity].
  exfalso. apply Hoff. split; [reflexivity|lia].
Qed.

(** The guard of [setNextReadPosition] is on, and the sample positions
    are not negative: the three cases of the rewrite. *)
Lemma wrappedPosition_guarded s newPosition :
  isLoopingBetweenTimes s = true ->
  loopStartSample s < getNextReadPosition s < loopEndSample s ->
  0 <= loopStartSample s -> loopEndSample s <= max_int64 ->
  0 <= newPosition <= max_int64 ->
  wrappedPosition s newPosition
  = Some (if newPosition >? loopEndSample s
          then loopStartSample s
               + (newPosition - loopEndSample s)
                 mod (loopEndSample s - loopStartSample s)
          else if newPosition <? loopStartSample s
          then loopEndSample s
               - (loopStartSample s - newPosition)
                 mod (loopEndSample s - loopStartSample s)
          else newPosition).
Proof.
  intros Hloop Hcur Hls Hle Hnew. unfold wrappedPosition.
  rewrite Hloop.
  destruct (Z.gtb_spec (getNextReadPosition s) (loopStartSample s)); [|lia].
  destruct (Z.ltb_spec (getNextReadPosition s) (loopEndSample s)); [|lia].
  cbn [andb]. cbv zeta.
  rewrite (@sub64_id (loopEndSample s)) by int_lia.
  set (len := loopEndSample s - loopStartSample s) in *.
  assert (Hlen : 0 < len) by (unfold len; lia).
  destruct (Z.gtb_spec newPosition (loopEndSample s)).
  - rewrite sub64_id by int_lia.
    rewrite rem64_nonneg by lia. cbn [bind].
    pose proof (Z.mod_pos_bound (newPosition - loopEndSample s) len Hlen).
    rewrite add64_id by (unfold len in *; int_lia). reflexivity.
  - destruct (Z.ltb_spec newPosition (loopStartSample s)); [|reflexivity].
    rewrite sub64_id by int_lia.
    rewrite rem64_nonneg by lia. cbn [bind].
    pose proof (Z.mod_pos_bound (loopStartSample s - newPosition) len Hlen).
    rewrite sub64_id by (unfold len in *; int_lia). reflexivity.
Qed.

End PositionFacts.

(* ================================================================== *)
(** ** The claims on loop times and read position *)

Section RegionClaims.

Context {Sample Src : Type} {PAS : PositionableAudioSource Sample Src}.
Variable silence : Sample.
Implicit Types (s : LoopingAudioSource Sample Src)
  (info : AudioSourceChannelInfo Sample).

(** C4, as stated, fails: [setLoopTimes (5, 3)] at one sample a second.
    The assertion is the only check; the bounds 5 and 3 are stored, and
    the next looping block is computed from them. *)
Lemma C4_counterexample_reversed_times :
  let s := reached (setLoopTimes prepared_at_1Hz 5%float 3%float) in
  PrimFloat.leb 3%float 5%float = true
  /\ setLoopTimes_asserts 5%float 3%float = false
  /\ setLoopTimes prepared_at_1Hz 5%float 3%float = Some s
  /\ loopStartSample s = 5 /\ loopEndSample s = 3
  /\ loopEndSample s <= loopStartSample s
  /\ newEnd_of (setLoopBetweenTimes s true) 0 4 = Some 6
  /\ outputOf (getNextAudioBlock (setLoopBetweenTimes s true)
                 (mkInfo (makeBuffer 0 2 4) 0 4))
     = Some [[0; 1; 2; 3]; [0; 1; 2; 3]].
Proof.
  cbv zeta.
  split; [reflexivity|]. split; [reflexivity|]. split; [reflexivity|].
  split; [reflexivity|]. split; [reflexivity|].
  split; [vm_compute; discriminate|].
  split; reflexivity.
Qed.

(** C4 (amended). [setLoopTimes] neither rejects nor clamps: whatever
    the two times are, the call succeeds, the times stored are the
    arguments and the bounds stored are their products with the sample
    rate, truncated; the assertion has no part in it. In particular
    [setLoopTimes (t, t)] stores a region of no samples. *)
Theorem C4_setLoopTimes_stores_any_region s (startTime endTime t : float) :
  (exists s',
     setLoopTimes s startTime endTime = Some s'
     /\ loopStartTime s' = startTime /\ loopEndTime s' = endTime
     /\ loopStartSample s'
        = double_to_int64 (PrimFloat.mul startTime (currentSampleRate s))
     /\ loopEndSample s'
        = double_to_int64 (PrimFloat.mul endTime (currentSampleRate s)))
  /\ (exists s',
        setLoopTimes s t t = Some s'
        /\ loopEndSample s' <= loopStartSample s').
Proof.
  split; eexists; (split; [apply setLoopTimes_effect|]); simpl.
  - repeat split.
  - lia.
Qed.

(** C5, as stated, fails: with the region 10 to 20 and the cursor at 15,
    the position 20 is handed on as it is, and the position 0 is rewritten
    to 20; 20 is not in the half-open range. *)
Lemma C5_counterexample_loop_end_forwarded :
  let s := reached (scenario 512 1%float 10%float 20%float 15) in
  isLoopingBetweenTimes s = true
  /\ loopStartSample s = 10 /\ loopEndSample s = 20
  /\ getNextReadPosition s = 15
  /\ wrappedPosition s 20 = Some 20
  /\ wrappedPosition s 0 = Some 20
  /\ option_map (@getNextReadPosition _ _ _) (setNextReadPosition s 20)
     = Some 20
  /\ ~ (10 <= 20 < 20).
Proof.
  cbv zeta.
  split; [reflexivity|]. split; [reflexivity|]. split; [reflexivity|].
  split; [reflexivity|]. split; [reflexivity|]. split; [reflexivity|].
  split; [reflexivity|]. lia.
Qed.

(** C5 (amended). With looping enabled and the cursor strictly inside the
    region (sample positions not negative), the value handed to the inner
    source lies in the closed range [[loopStartSample, loopEndSample]] and
    differs from [newPosition] by a multiple of the loop length: a
    [newPosition] above the loop end is wrapped below it, one below the
    loop start is wrapped above it (up to the loop end itself), one in the
    closed range is kept. When looping is off or the cursor is not strictly
    inside, [newPosition] is handed on as it is. *)
Theorem C5_setNextReadPosition_wraps s (newPosition : Z) :
  (isLoopingBetweenTimes s = true ->
   loopStartSample s < getNextReadPosition s < loopEndSample s ->
   0 <= loopStartSample s -> loopEndSample s <= max_int64 ->
   0 <= newPosition <= max_int64 ->
   exists p,
     wrappedPosition s newPosition = Some p
     /\ setNextReadPosition s newPosition
        = Some (with_input s (input_setNextReadPosition (input s) p))
     /\ loopStartSample s <= p <= loopEndSample s
     /\ (p - newPosition) mod (loopEndSample s - loopStartSample s) = 0
     /\ (loopEndSample s < newPosition -> p < loopEndSample s)
     /\ (newPosition < loopStartSample s -> loopStartSample s < p)
     /\ (loopStartSample s <= newPosition <= loopEndSample s
         -> p = newPosition))
  /\ (~ (isLoopingBetweenTimes s = true
         /\ loopStartSample s < getNextReadPosition s < loopEndSample s) ->
      wrappedPosition s newPosition = Some newPosition
      /\ setNextReadPosition s newPosition
         = Some (with_input s
                   (input_setNextReadPosition (input s) newPosition))).
Proof.
  split.
  - intros Hloop Hcur Hls Hle Hnew.
    pose proof (wrappedPosition_guarded s Hloop Hcur Hls Hle Hnew) as Hwrap.
    set (len := loopEndSample s - loopStartSample s) in *.
    assert (Hlen : 0 < len) by (unfold len; lia).
    eexists. split; [exact Hwrap|].
    split; [unfold setNextReadPosition; rewrite Hwrap; reflexivity|].
    destruct (Z.gtb_spec newPosition (loopEndSample s)) as [Habove|Hnot].
    + pose proof (Z.mod_pos_bound (newPosition - loopEndSample s) len Hlen).
      repeat split; try (unfold len in *; lia).
      rewrite (Z.mod_eq (newPosition - loopEndSample s) len) by lia.
      replace (loopStartSample s
               + (newPosition - loopEndSample s
                  - len * ((newPosition - loopEndSample s) / len))
               - newPosition)
        with ((-1 - (newPosition - loopEndSample s) / len) * len)
        by (unfold len; ring).
      apply Z.mod_mul. lia.
    + destruct (Z.ltb_spec newPosition (loopStartSample s)) as [Hbelow|Hin].
      * pose proof
          (Z.mod_pos_bound (loopStartSample s - newPosition) len Hlen).
        repeat split; try (unfold len in *; lia).
        rewrite (Z.mod_eq (loopStartSample s - newPosition) len) by lia.
        replace (loopEndSample s
                 - (loopStartSample s - newPosition
                    - len * ((loopStartSample s - newPosition) / len))
                 - newPosition)
          with ((1 + (loopStartSample s - newPosition) / len) * len)
          by (unfold len; ring).
        apply Z.mod_mul. lia.
      * repeat split; try lia.
        rewrite Z.sub_diag. apply Z.mod_0_l. lia.
  - intros Hoff.
    pose proof (wrappedPosition_unguarded s newPosition Hoff) as Hwrap.
    split; [exact Hwrap|].
    unfold setNextReadPosition. rewrite Hwrap. reflexivity.
Qed.

(** C7. With looping disabled and a positive sample count, a block
    request is the inner source's own: the same output (or the same
    failure), whatever the loop region is, and the inner source is left as
    its own read leaves it, with no repositioning by the wrapper. *)
Theorem C7_pass_through_when_not_looping s info :
  isLoopingBetweenTimes s = false -> 0 < numSamples info ->
  getNextAudioBlock s info
  = match input_getNextAudioBlock (input s) info with
    | Some (input1, out) => Some (with_input s input1, out)
    | None => None
    end
  /\ outputOf (getNextAudioBlock s info)
     = option_map snd (input_getNextAudioBlock (input s) info)
  /\ option_map (fun r => input (fst r)) (getNextAudioBlock s info)
     = option_map fst (input_getNextAudioBlock (input s) info).
Proof.
  intros Hoff Hnum. unfold outputOf, getNextAudioBlock.
  destruct (Z.gtb_spec (numSamples info) 0); [|lia].
  rewrite Hoff. unfold bind.
  destruct (input_getNextAudioBlock (input s) info) as [[input1 out]|];
    repeat split.
Qed.

(** C8. A second [setLoopTimes] with the same times changes nothing: the
    state after it is the state after the first call, loop times, sample
    bounds and inner source included (for an inner source on which setting
    the position it already reports has no effect). *)
Theorem C8_setLoopTimes_idempotent s (startTime endTime : float) :
  cursor_only_source (Src := Src) ->
  exists s1,
    setLoopTimes s startTime endTime = Some s1
    /\ setLoopTimes s1 startTime endTime = Some s1
    /\ input s1 = input s.
Proof.
  intros Hsame. eexists.
  split; [apply setLoopTimes_effect|].
  rewrite setLoopTimes_effect. simpl. rewrite !Hsame.
  split; reflexivity.
Qed.

Lemma getNumSamples_makeBuffer (num : Z) :
  0 <= num -> getNumSamples (makeBuffer silence 2 num) = num.
Proof.
  intros Hnum. unfold makeBuffer. simpl. rewrite repeat_length. lia.
Qed.

Lemma getNumSamples_nonneg (b : AudioSampleBuffer Sample) :
  0 <= getNumSamples b.
Proof. destruct b; simpl; lia. Qed.

Lemma prepareToPlay_capacity s (num : Z) (rate : float) :
  getNumSamples (tempBuffer (prepareToPlay silence s num rate))
  = Z.max (getNumSamples (tempBuffer s)) num.
Proof.
  unfold prepareToPlay.
  pose proof (getNumSamples_nonneg (tempBuffer s)).
  destruct (Z.ltb_spec (getNumSamples (tempBuffer s)) num);
    cbn [tempBuffer].
  - unfold setSize. rewrite getNumSamples_makeBuffer; lia.
  - lia.
Qed.

(** C9. One [prepareToPlay] leaves the scratch buffer with the larger of
    its capacity and the expected block size, and leaves the buffer itself
    alone unless the expected block size is larger; so after any run of
    calls the capacity is the maximum of the capacity before and of the
    block sizes asked for, and it is never below the capacity before. *)
Theorem C9_scratch_capacity_is_the_maximum s (num : Z) (rate : float)
    (calls : list (Z * float)) :
  getNumSamples (tempBuffer (prepareToPlay silence s num rate))
  = Z.max (getNumSamples (tempBuffer s)) num
  /\ (if getNumSamples (tempBuffer s) <? num
      then getNumSamples (tempBuffer (prepareToPlay silence s num rate)) = num
      else tempBuffer (prepareToPlay silence s num rate) = tempBuffer s)
  /\ getNumSamples (tempBuffer (prepareAll silence s calls))
     = fold_left Z.max (map fst calls) (getNumSamples (tempBuffer s))
  /\ getNumSamples (tempBuffer s)
     <= getNumSamples (tempBuffer (prepareAll silence s calls)).
Proof.
  split; [apply prepareToPlay_capacity|]. split.
  - pose proof (prepareToPlay_capacity s num rate) as Hcap.
    destruct (Z.ltb_spec (getNumSamples (tempBuffer s)) num) as [Hlt|Hge].
    + lia.
    + unfold prepareToPlay.
      destruct (Z.ltb_spec (getNumSamples (tempBuffer s)) num); [lia|].
      reflexivity.
  - assert (Hrun : forall calls s,
      getNumSamples (tempBuffer (prepareAll silence s calls))
      = fold_left Z.max (map fst calls) (getNumSamples (tempBuffer s))).
    { clear. induction calls as [|[n r] calls IH]; intros s.
      - reflexivity.
      - unfold prepareAll in *. simpl. rewrite IH.
        now rewrite prepareToPlay_capacity. }
    split; [apply Hrun|]. rewrite Hrun.
    generalize (getNumSamples (tempBuffer s)) as cap.
    clear. induction calls as [|[n r] calls IH]; intros cap; simpl.
    + lia.
    + specialize (IH (Z.max cap n)). lia.
Qed.

End RegionClaims.

(* ================================================================== *)
(** ** The claims at concrete inputs *)

Section Scenarios.

(** The ramp keeps nothing but its cursor. *)
Lemma ramp_cursor_only : cursor_only_source (Src := RampSource).
Proof. intros [p]. reflexivity. Qed.

(** C3: what the code does at the failing input. At one sample a second,
    looping over the samples 0 to 10 with the cursor at 5,
    [setLoopTimes (20, 30)] stores the bounds 20 and 30 and then hands the
    cursor to [setNextReadPosition], whose guard compares the cursor with
    the new bounds and so never rewrites it: the cursor stays at 5, outside
    the new region, and the next block is read from there. *)
Theorem C3_setLoopTimes_leaves_cursor_behind :
  let s := reached (scenario 512 1%float 0%float 10%float 5) in
  let s' := reached (setLoopTimes s 20%float 30%float) in
  scenario 512 1%float 0%float 10%float 5 = Some s
  /\ isLoopingBetweenTimes s = true
  /\ loopStartSample s = 0 /\ loopEndSample s = 10
  /\ getNextReadPosition s = 5
  /\ setLoopTimes_asserts 20%float 30%float = true
  /\ setLoopTimes s 20%float 30%float = Some s'
  /\ loopStartSample s'
     = double_to_int64 (PrimFloat.mul 20%float (currentSampleRate s))
  /\ loopEndSample s'
     = double_to_int64 (PrimFloat.mul 30%float (currentSampleRate s))
  /\ loopStartSample s' = 20 /\ loopEndSample s' = 30
  /\ getNextReadPosition s' = 5
  /\ (getNextReadPosition s' <? loopStartSample s') = true
  /\ outputOf (getNextAudioBlock s' (mkInfo (makeBuffer 0 2 4) 0 4))
     = Some [[5; 6; 7; 8]; [5; 6; 7; 8]].
Proof.
  cbv zeta. repeat (split; [vm_compute; reflexivity|]).
  vm_compute; reflexivity.
Qed.

(** C5 (amended) at concrete inputs: the position 9 with the loop 2 to 6
    and the cursor at 4, and with looping off. *)
Lemma C5_setNextReadPosition_witness :
  (exists p,
     wrappedPosition loop_2_6_at_4 9 = Some p
     /\ setNextReadPosition loop_2_6_at_4 9
        = Some (with_input loop_2_6_at_4 (mkRamp p))
     /\ 2 <= p <= 6
     /\ (p - 9) mod (6 - 2) = 0
     /\ (6 < 9 -> p < 6)
     /\ (9 < 2 -> 2 < p)
     /\ (2 <= 9 <= 6 -> p = 9))
  /\ wrappedPosition prepared_at_1Hz 9 = Some 9.
Proof.
  split.
  - assert (Hcur : loopStartSample loop_2_6_at_4
                   < getNextReadPosition loop_2_6_at_4
                   < loopEndSample loop_2_6_at_4) by (simpl; lia).
    assert (Hls : 0 <= loopStartSample loop_2_6_at_4) by (simpl; lia).
    assert (Hle : loopEndSample loop_2_6_at_4 <= max_int64)
      by (simpl; int_lia).
    assert (Hnew : 0 <= 9 <= max_int64) by int_lia.
    exact (proj1 (C5_setNextReadPosition_wraps loop_2_6_at_4 9)
             eq_refl Hcur Hls Hle Hnew).
  - apply (proj2 (C5_setNextReadPosition_wraps prepared_at_1Hz 9)).
    intros [Hloop _]. discriminate Hloop.
Defined.

(** C7 at a concrete input: the loop 2 to 6 switched off, the ramp at 4,
    a block of 3 samples. *)
Lemma C7_pass_through_witness :
  getNextAudioBlock (setLoopBetweenTimes loop_2_6_at_4 false)
    (mkInfo (makeBuffer 0 2 3) 0 3)
  = match ramp_getNextAudioBlock (mkRamp 4) (mkInfo (makeBuffer 0 2 3) 0 3)
    with
    | Some (input1, out) =>
        Some (with_input (setLoopBetweenTimes loop_2_6_at_4 false) input1,
              out)
    | None => None
    end
  /\ outputOf (getNextAudioBlock (setLoopBetweenTimes loop_2_6_at_4 false)
                 (mkInfo (makeBuffer 0 2 3) 0 3))
     = option_map snd
         (ramp_getNextAudioBlock (mkRamp 4) (mkInfo (makeBuffer 0 2 3) 0 3))
  /\ option_map (fun r => input (fst r))
       (getNextAudioBlock (setLoopBetweenTimes loop_2_6_at_4 false)
          (mkInfo (makeBuffer 0 2 3) 0 3))
     = option_map fst
         (ramp_getNextAudioBlock (mkRamp 4) (mkInfo (makeBuffer 0 2 3) 0 3)).
Proof.
  assert (Hnum : 0 < numSamples (mkInfo (makeBuffer 0 2 3) 0 3))
    by (simpl; lia).
  exact (@C7_pass_through_when_not_looping Z RampSource _
           (setLoopBetweenTimes loop_2_6_at_4 false)
           (mkInfo (makeBuffer 0 2 3) 0 3) eq_refl Hnum).
Defined.

(** C8 at a concrete input: the ramp as inner source, the times 2 s and
    6 s set a second time. *)
Lemma C8_setLoopTimes_witness :
  exists s1,
    setLoopTimes loop_2_6_at_4 2%float 6%float = Some s1
    /\ setLoopTimes s1 2%float 6%float = Some s1
    /\ input s1 = input loop_2_6_at_4.
Proof.
  apply (@C8_setLoopTimes_idempotent Z RampSource _ loop_2_6_at_4
           2%float 6%float).
  exact ramp_cursor_only.
Defined.

(** Why the amended C1 asks for more than [endTime > startTime]: two
    times less than a sample apart give a region of no samples, and the
    modulo of the next looping block has a zero divisor. *)
Example close_times_give_an_empty_region :
  let s := reached (scenario 512 1%float 0.25%float 0.5%float 0) in
  setLoopTimes_asserts 0.25%float 0.5%float = true
  /\ loopStartSample s = 0 /\ loopEndSample s = 0
  /\ getNextAudioBlock s (mkInfo (makeBuffer 0 2 3) 0 3) = None.
Proof. cbv zeta. repeat split; vm_compute; reflexivity. Qed.

(** Why the amended C1 asks for [0 <= loopStartSample]: with the region
    -2 to 4 and the cursor at 1, a block of one sample gives
    [newEnd] = -2 + (2 mod 4) = 0, which is not above the cursor; the block
    is split although it ends inside the loop, and the cursor is left at 0
    instead of 2. *)
Example negative_loop_start_splits_too_early :
  let s := reached (scenario 512 1%float (-2)%float 4%float 1) in
  loopStartSample s = -2 /\ loopEndSample s = 4
  /\ getNextReadPosition s = 1
  /\ newEnd_of s 1 1 = Some 0
  /\ outputOf (getNextAudioBlock s (mkInfo (makeBuffer 0 2 1) 0 1))
     = Some [[1]; [1]]
  /\ cursorAfter (getNextAudioBlock s (mkInfo (makeBuffer 0 2 1) 0 1))
     = Some 0.
Proof. cbv zeta. repeat split; vm_compute; reflexivity. Qed.

End Scenarios.

(* ================================================================== *)
(** ** Further properties: looped playback over a ramp *)

Section LoopedPlayback.

Implicit Types (s : LoopingAudioSource Z RampSource)
  (info : AudioSourceChannelInfo Z).

(** After one looped block the cursor is where modular arithmetic on the
    loop length puts it, still inside the region, and the region, the
    looping flag and the scratch buffer are as the next call needs them. *)
Theorem looped_block_keeps_the_cursor_in_the_loop s info (cap : Z) :
  isLoopingBetweenTimes s = true ->
  valid_region s -> cursor_in_region s ->
  0 < numSamples info <= loopEndSample s - loopStartSample s ->
  request_fits s info cap ->
  exists s' out,
    getNextAudioBlock s info = Some (s', out)
    /\ getNextReadPosition s'
       = loopStartSample s
         + (getNextReadPosition s - loopStartSample s + numSamples info)
           mod (loopEndSample s - loopStartSample s)
    /\ cursor_in_region s' /\ valid_region s'
    /\ isLoopingBetweenTimes s' = true
    /\ loopStartSample s' = loopStartSample s
    /\ loopEndSample s' = loopEndSample s
    /\ scratch_ready s' cap.
Proof.
  intros Hloop Hreg Hcur Hnum Hfit.
  destruct (getNextAudioBlock_looped Hloop Hreg Hcur Hnum Hfit)
    as (s' & Hrun & Hpos & Hloop' & Hls & Hle & Hscratch).
  pose proof Hreg as [Hbounds Hroom]. unfold cursor_in_region in Hcur.
  assert (Hmod :
    getNextReadPosition s'
    = loopStartSample s
      + (getNextReadPosition s - loopStartSample s + numSamples info)
        mod (loopEndSample s - loopStartSample s)).
  { rewrite Hpos, loopAdvance_block by lia.
    destruct (Z.ltb_spec (getNextReadPosition s + numSamples info)
                (loopEndSample s)).
    - rewrite Z.mod_small by lia. lia.
    - f_equal. apply Z.mod_unique with 1; lia. }
  exists s', (map (overwrite (startSample info)
                     (loopPositions (loopStartSample s) (loopEndSample s)
                        (getNextReadPosition s)
                        (Z.to_nat (numSamples info))))
                (buffer info)).
  split; [exact Hrun|]. split; [exact Hmod|].
  split.
  { unfold cursor_in_region. rewrite Hls, Hle, Hpos.
    apply loopAdvance_in_region; lia. }
  split; [unfold valid_region; rewrite Hls, Hle; exact Hreg|].
  repeat (split; [assumption|]). assumption.
Qed.

(** At a concrete input: the loop 2 to 6, the cursor at 4, a block of 3
    samples leaves the cursor at 2 + (4 - 2 + 3) mod 4 = 3. *)
Lemma looped_block_cursor_witness :
  exists s' out,
    getNextAudioBlock loop_2_6_at_4 (mkInfo (makeBuffer 0 2 3) 0 3)
    = Some (s', out)
    /\ getNextReadPosition s' = 2 + (4 - 2 + 3) mod (6 - 2)
    /\ cursor_in_region s' /\ valid_region s'
    /\ isLoopingBetweenTimes s' = true
    /\ loopStartSample s' = 2 /\ loopEndSample s' = 6
    /\ scratch_ready s' 512.
Proof.
  assert (Hreg : valid_region loop_2_6_at_4)
    by (unfold valid_region; simpl; int_lia).
  assert (Hcur : cursor_in_region loop_2_6_at_4)
    by (unfold cursor_in_region; simpl; lia).
  assert (Hnum : 0 < numSamples (mkInfo (makeBuffer 0 2 3) 0 3)
                 <= loopEndSample loop_2_6_at_4
                    - loopStartSample loop_2_6_at_4) by (simpl; lia).
  assert (Hfit : request_fits loop_2_6_at_4
                   (mkInfo (makeBuffer 0 2 3) 0 3) 512).
  { split; [split; [reflexivity|repeat constructor]|].
    split; [simpl; lia|]. split; [simpl; int_lia|]. split; [simpl; lia|].
    apply fresh_destination_ready. lia. }
  exact (@looped_block_keeps_the_cursor_in_the_loop loop_2_6_at_4
           (mkInfo (makeBuffer 0 2 3) 0 3) 512 eq_refl Hreg Hcur Hnum Hfit).
Defined.

(** How a run of samples is cut into blocks does not matter: two runs of
    block requests that ask for the same number of samples give the same
    stream in every channel and leave the cursor at the same place. *)
Theorem block_sizes_do_not_change_the_stream s (cap nch : Z)
    (sizes1 sizes2 : list Z) :
  isLoopingBetweenTimes s = true ->
  valid_region s -> cursor_in_region s -> scratch_ready s cap ->
  0 <= nch <= 2 ->
  Forall (block_size_ok (loopStartSample s) (loopEndSample s) cap) sizes1 ->
  Forall (block_size_ok (loopStartSample s) (loopEndSample s) cap) sizes2 ->
  totalSamples sizes1 = totalSamples sizes2 ->
  exists s1 outs1 s2 outs2,
    produceBlocks 0 s nch sizes1 = Some (s1, outs1)
    /\ produceBlocks 0 s nch sizes2 = Some (s2, outs2)
    /\ (forall ch, (ch < Z.to_nat nch)%nat ->
          channelStream outs1 ch = channelStream outs2 ch)
    /\ getNextReadPosition s1 = getNextReadPosition s2.
Proof.
  intros Hloop Hreg Hcur Hscratch Hnch Hok1 Hok2 Htotal.
  destruct (@produceBlocks_looped sizes1 s cap nch)
    as (s1 & outs1 & Hrun1 & Hstream1 & Hpos1); try assumption.
  destruct (@produceBlocks_looped sizes2 s cap nch)
    as (s2 & outs2 & Hrun2 & Hstream2 & Hpos2); try assumption.
  exists s1, outs1, s2, outs2.
  split; [exact Hrun1|]. split; [exact Hrun2|]. split.
  - intros ch Hch.
    rewrite (Hstream1 ch Hch), (Hstream2 ch Hch), Htotal. reflexivity.
  - rewrite Hpos1, Hpos2, Htotal. reflexivity.
Qed.

(** At a concrete input: the loop 2 to 6 from the cursor 4, five samples
    asked for as 3 + 2 and as 1 + 4. *)
Lemma block_sizes_witness :
  exists s1 outs1 s2 outs2,
    produceBlocks 0 loop_2_6_at_4 2 [3; 2] = Some (s1, outs1)
    /\ produceBlocks 0 loop_2_6_at_4 2 [1; 4] = Some (s2, outs2)
    /\ (forall ch, (ch < 2)%nat ->
          channelStream outs1 ch = channelStream outs2 ch)
    /\ getNextReadPosition s1 = getNextReadPosition s2.
Proof.
  apply (@block_sizes_do_not_change_the_stream loop_2_6_at_4 512 2
           [3; 2] [1; 4]).
  - reflexivity.
  - unfold valid_region. simpl. int_lia.
  - unfold cursor_in_region. simpl. lia.
  - split; [reflexivity|]. repeat constructor.
  - lia.
  - repeat constructor; simpl; int_lia.
  - repeat constructor; simpl; int_lia.
  - reflexivity.
Defined.

End LoopedPlayback.

(* ================================================================== *)
(** ** Further properties: the loop as a whole, and its edges *)

Section LoopEdges.

Implicit Types (s : LoopingAudioSource Z RampSource)
  (info : AudioSourceChannelInfo Z).

(** One pass of the loop, read from the cursor on. *)
Lemma loopPositions_one_pass loopStart loopEnd p :
  loopStart <= p < loopEnd ->
  loopPositions loopStart loopEnd p (Z.to_nat (loopEnd - loopStart))
  = rampSamples p (loopEnd - p) ++ rampSamples loopStart (p - loopStart)
  /\ loopAdvance loopStart loopEnd p (Z.to_nat (loopEnd - loopStart)) = p.
Proof.
  intros Hp.
  rewrite loopPositions_block, loopAdvance_block by lia.
  destruct (Z.ltb_spec (p + (loopEnd - loopStart)) loopEnd); [lia|].
  split; [|lia]. do 2 f_equal. lia.
Qed.

Lemma rampSamples_rotation loopStart loopEnd p :
  loopStart <= p < loopEnd ->
  Permutation
    (rampSamples p (loopEnd - p) ++ rampSamples loopStart (p - loopStart))
    (rampSamples loopStart (loopEnd - loopStart)).
Proof.
  intros Hp.
  replace (loopEnd - loopStart)
    with (Z.of_nat (Z.to_nat (p - loopStart) + Z.to_nat (loopEnd - p)))
    by lia.
  rewrite rampSamples_app, !Z2Nat.id by lia.
  replace (loopStart + (p - loopStart)) with p by lia.
  apply Permutation_app_comm.
Qed.

(** Blocks that add up to the loop length play every sample of the loop
    exactly once, from the cursor to the loop end and then from the loop
    start up to the cursor, and bring the cursor back to where it was. *)
Theorem one_pass_of_the_loop_plays_every_sample_once s (cap nch : Z)
    (sizes : list Z) :
  isLoopingBetweenTimes s = true ->
  valid_region s -> cursor_in_region s -> scratch_ready s cap ->
  0 <= nch <= 2 ->
  Forall (block_size_ok (loopStartSample s) (loopEndSample s) cap) sizes ->
  Z.of_nat (totalSamples sizes) = loopEndSample s - loopStartSample s ->
  exists s' outs,
    produceBlocks 0 s nch sizes = Some (s', outs)
    /\ getNextReadPosition s' = getNextReadPosition s
    /\ forall ch, (ch < Z.to_nat nch)%nat ->
         channelStream outs ch
         = rampSamples (getNextReadPosition s)
             (loopEndSample s - getNextReadPosition s)
           ++ rampSamples (loopStartSample s)
                (getNextReadPosition s - loopStartSample s)
         /\ Permutation (channelStream outs ch)
              (rampSamples (loopStartSample s)
                 (loopEndSample s - loopStartSample s)).
Proof.
  intros Hloop Hreg Hcur Hscratch Hnch Hok Htotal.
  destruct (@produceBlocks_looped sizes s cap nch)
    as (s' & outs & Hrun & Hstream & Hpos); try assumption.
  assert (Hcount : totalSamples sizes
                   = Z.to_nat (loopEndSample s - loopStartSample s))
    by lia.
  rewrite Hcount in Hstream, Hpos.
  destruct (@loopPositions_one_pass (loopStartSample s) (loopEndSample s)
              (getNextReadPosition s) Hcur) as [Hpass Hback].
  exists s', outs. split; [exact Hrun|].
  split; [rewrite Hpos; exact Hback|].
  intros ch Hch. rewrite (Hstream ch Hch), Hpass.
  split; [reflexivity|]. apply rampSamples_rotation. exact Hcur.
Qed.

(** At a concrete input: the loop 2 to 6 from the cursor 4, in blocks of
    3 and 1 samples. *)
Lemma one_pass_witness :
  exists s' outs,
    produceBlocks 0 loop_2_6_at_4 2 [3; 1] = Some (s', outs)
    /\ getNextReadPosition s' = 4
    /\ forall ch, (ch < 2)%nat ->
         channelStream outs ch = [4; 5] ++ [2; 3]
         /\ Permutation (channelStream outs ch) [2; 3; 4; 5].
Proof.
  apply (@one_pass_of_the_loop_plays_every_sample_once loop_2_6_at_4
           512 2 [3; 1]).
  - reflexivity.
  - unfold valid_region. simpl. int_lia.
  - unfold cursor_in_region. simpl. lia.
  - split; [reflexivity|]. repeat constructor.
  - lia.
  - repeat constructor; simpl; int_lia.
  - reflexivity.
Defined.

(** A cursor left on the loop end itself is served as the loop start: the
    block holds the samples from [loopStartSample] on. *)
Theorem cursor_on_the_loop_end_plays_from_the_loop_start s info (cap : Z) :
  isLoopingBetweenTimes s = true ->
  valid_region s ->
  getNextReadPosition s = loopEndSample s ->
  0 < numSamples info <= loopEndSample s - loopStartSample s ->
  numSamples info < loopEndSample s ->
  request_fits s info cap ->
  outputOf (getNextAudioBlock s info)
  = Some (map (overwrite (startSample info)
                 (rampSamples (loopStartSample s) (numSamples info)))
            (buffer info))
  /\ cursorAfter (getNextAudioBlock s info)
     = Some (loopStartSample s + numSamples info).
Proof.
  intros Hloop Hreg Hcur Hnum Hshort Hfit.
  pose proof Hreg as [Hbounds Hroom].
  assert (Hend : newEnd_of s (getNextReadPosition s) (numSamples info)
                 = Some (loopStartSample s + numSamples info)).
  { unfold newEnd_of. rewrite Hcur.
    rewrite add64_id by int_lia.
    rewrite rem64_nonneg by lia. cbn [bind].
    assert ((loopEndSample s + numSamples info) mod loopEndSample s
            = numSamples info) as ->
      by (symmetry; apply Z.mod_unique with 1; lia).
    rewrite add64_id by int_lia. reflexivity. }
  destruct (@getNextAudioBlock_split s info cap
              (loopStartSample s + numSamples info))
    as (s' & Hrun & Hpos & _);
    try assumption; try lia; try int_lia.
  rewrite Hrun. unfold outputOf, cursorAfter. cbn [option_map fst snd].
  rewrite Hpos. split; [|reflexivity].
  rewrite Hcur, Z.sub_diag.
  change (rampSamples (loopEndSample s) 0) with (@nil Z). cbn [app].
  do 4 f_equal. lia.
Qed.

(** At a concrete input: the loop 2 to 6, the cursor on 6, a block of 3
    samples. *)
Lemma cursor_on_the_loop_end_witness :
  outputOf (getNextAudioBlock loop_2_6_at_6 (mkInfo (makeBuffer 0 2 3) 0 3))
  = Some [[2; 3; 4]; [2; 3; 4]]
  /\ cursorAfter (getNextAudioBlock loop_2_6_at_6
                    (mkInfo (makeBuffer 0 2 3) 0 3))
     = Some (2 + 3).
Proof.
  apply (@cursor_on_the_loop_end_plays_from_the_loop_start loop_2_6_at_6
           (mkInfo (makeBuffer 0 2 3) 0 3) 512).
  - reflexivity.
  - unfold valid_region. simpl. int_lia.
  - reflexivity.
  - simpl. lia.
  - simpl. lia.
  - split; [split; [reflexivity|repeat constructor]|].
    split; [simpl; lia|]. split; [simpl; int_lia|]. split; [simpl; lia|].
    apply fresh_destination_ready. lia.
Defined.

End LoopEdges.

Section ScratchOverrun.

Implicit Types (s : LoopingAudioSource Z RampSource)
  (info : AudioSourceChannelInfo Z).

Lemma writeChannels_overrun (ch : list Z) (rest : AudioSampleBuffer Z)
    start vals :
  Z.of_nat (length ch) < start + Z.of_nat (length vals) ->
  writeChannels (ch :: rest) start vals = None.
Proof.
  intros Hover. simpl. unfold writeSamples.
  destruct (Z.leb_spec (start + Z.of_nat (length vals))
              (Z.of_nat (length ch))); [lia|].
  now rewrite andb_false_r.
Qed.

(** A block that has to be split and is longer than the scratch buffer
    cannot be assembled: one of the two reads runs past the end of the
    scratch buffer, and the call has no result. *)
Theorem split_block_longer_than_the_scratch_buffer_fails s info (cap : Z) :
  isLoopingBetweenTimes s = true ->
  valid_region s -> cursor_in_region s ->
  0 < numSamples info <= loopEndSample s - loopStartSample s ->
  loopEndSample s <= getNextReadPosition s + numSamples info ->
  scratch_ready s cap -> cap < numSamples info ->
  numSamples info <= max_int32 ->
  getNextAudioBlock s info = None.
Proof.
  intros Hloop Hreg Hcur Hnum Hcross [Htwo Hsize] Hcap Hint.
  pose proof (newEnd_of_crossing Hreg Hcur Hnum Hcross) as Hend.
  unfold cursor_in_region in Hcur.
  destruct info as [b start num].
  unfold getNextAudioBlock, getNextReadPosition in *. simpl in *.
  pose proof Hreg as [Hbounds Hroom].
  remember (nextPlayPos (input s)) as c eqn:Ec.
  destruct (Z.gtb_spec num 0); [|lia].
  rewrite Hloop, Hend. cbn [bind].
  destruct (Z.gtb_spec (loopStartSample s + (c + num - loopEndSample s)) c);
    [lia|].
  unfold numEndSamps_of, numStartSamps_of.
  rewrite !sub64_id by int_lia.
  rewrite !to_int_id by int_lia.
  destruct (tempBuffer s) as [|ch1 temp] eqn:Etemp; [discriminate Htwo|].
  inversion Hsize as [|? ? Hch1 Htemp]; subst.
  destruct (Z.le_gt_cases (loopEndSample s - nextPlayPos (input s))
              (Z.of_nat (length ch1))) as [Hfirst|Hfirst].
  - (* the first read fits, the second runs over *)
    rewrite ramp_read.
    2: lia. 2: lia.
    2:{ constructor; [lia|]. eapply Forall_impl; [|exact Htemp].
        simpl. intros ch Hch. lia. }
    2:{ int_lia. }
    cbn [bind]. unfold ramp_getNextAudioBlock.
    cbn [numSamples startSample buffer nextPlayPos map].
    destruct (Z.gtb_spec
                (loopStartSample s
                 + (nextPlayPos (input s) + num - loopEndSample s)
                 - loopStartSample s) 0); [|lia].
    rewrite writeChannels_overrun; [reflexivity|].
    rewrite length_overwrite; rewrite ?length_rampSamples; lia.
  - (* the first read runs over *)
    unfold ramp_getNextAudioBlock.
    cbn [numSamples startSample buffer nextPlayPos].
    destruct (Z.gtb_spec (loopEndSample s - nextPlayPos (input s)) 0);
      [|lia].
    rewrite writeChannels_overrun; [reflexivity|].
    rewrite length_rampSamples. lia.
Qed.

(** At a concrete input: a scratch buffer of 512 samples, the loop 0 to
    2000, the cursor at 1900, a block of 600 samples. *)
Lemma split_block_overrun_witness :
  getNextAudioBlock loop_0_2000_at_1900 (mkInfo (makeBuffer 0 2 600) 0 600)
  = None.
Proof.
  apply (@split_block_longer_than_the_scratch_buffer_fails
           loop_0_2000_at_1900 (mkInfo (makeBuffer 0 2 600) 0 600) 512).
  - reflexivity.
  - unfold valid_region. simpl. int_lia.
  - unfold cursor_in_region. simpl. lia.
  - simpl. lia.
  - simpl. lia.
  - split; [reflexivity|]. repeat constructor.
  - simpl. lia.
  - simpl. int_lia.
Defined.

End ScratchOverrun.

(* ================================================================== *)
(** ** Further properties: any inner source *)

Section AnySource.

Context {Sample Src : Type} {PAS : PositionableAudioSource Sample Src}.
Variable silence : Sample.
Implicit Types (s : LoopingAudioSource Sample Src)
  (info : AudioSourceChannelInfo Sample).

(** With looping enabled, a block that ends before the loop end is the
    inner source's own block: one read into the caller's buffer, the same
    output as with looping disabled, whatever the inner source is. *)
Theorem block_inside_the_loop_is_read_straight_through s info :
  isLoopingBetweenTimes s = true ->
  valid_region s -> cursor_in_region s ->
  0 < numSamples info ->
  getNextReadPosition s + numSamples info < loopEndSample s ->
  getNextAudioBlock s info
  = match input_getNextAudioBlock (input s) info with
    | Some (input1, out) => Some (with_input s input1, out)
    | None => None
    end
  /\ outputOf (getNextAudioBlock s info)
     = outputOf (getNextAudioBlock (setLoopBetweenTimes s false) info).
Proof.
  intros Hloop Hreg Hcur Hnum Hin.
  pose proof (newEnd_of_inside Hreg (proj1 Hcur) Hnum Hin) as Hend.
  pose proof Hreg as [Hbounds _].
  unfold outputOf, getNextAudioBlock.
  destruct (Z.gtb_spec (numSamples info) 0); [|lia].
  rewrite Hloop, Hend. cbn [bind isLoopingBetweenTimes setLoopBetweenTimes].
  destruct (Z.gtb_spec
              (loopStartSample s + getNextReadPosition s + numSamples info)
              (getNextReadPosition s)); [|lia].
  change (input (setLoopBetweenTimes s false)) with (input s).
  destruct (input_getNextAudioBlock (input s) info) as [[input1 out]|];
    split; reflexivity.
Qed.

Lemma last_cons_default {A : Type} (l : list A) : forall d r,
  last (r :: l) d = last l r.
Proof.
  induction l as [|a l IH]; intros d r; [reflexivity|].
  change (last (r :: a :: l) d) with (last (a :: l) d).
  now rewrite !IH.
Qed.

Lemma prepareToPlay_frame s (num : Z) (rate : float) :
  loopStartSample (prepareToPlay silence s num rate) = loopStartSample s
  /\ loopEndSample (prepareToPlay silence s num rate) = loopEndSample s
  /\ loopStartTime (prepareToPlay silence s num rate) = loopStartTime s
  /\ loopEndTime (prepareToPlay silence s num rate) = loopEndTime s
  /\ isLoopingBetweenTimes (prepareToPlay silence s num rate)
     = isLoopingBetweenTimes s
  /\ currentSampleRate (prepareToPlay silence s num rate) = rate.
Proof.
  unfold prepareToPlay.
  destruct (getNumSamples (tempBuffer s) <? num); repeat split.
Qed.

Lemma prepareAll_frame (calls : list (Z * float)) : forall s,
  loopStartSample (prepareAll silence s calls) = loopStartSample s
  /\ loopEndSample (prepareAll silence s calls) = loopEndSample s
  /\ loopStartTime (prepareAll silence s calls) = loopStartTime s
  /\ loopEndTime (prepareAll silence s calls) = loopEndTime s
  /\ isLoopingBetweenTimes (prepareAll silence s calls)
     = isLoopingBetweenTimes s.
Proof.
  induction calls as [|[n r] calls IH]; intros s.
  - repeat split.
  - unfold prepareAll in *. cbn [fold_left fst snd].
    destruct (IH (prepareToPlay silence s n r)) as (H1 & H2 & H3 & H4 & H5).
    destruct (prepareToPlay_frame s n r) as (F1 & F2 & F3 & F4 & F5 & _).
    rewrite H1, H2, H3, H4, H5. repeat split; assumption.
Qed.

Lemma prepareToPlay_scratch s (cap num : Z) (rate : float) :
  scratch_ready s cap ->
  scratch_ready (prepareToPlay silence s num rate) (Z.max cap num).
Proof.
  intros [Htwo Hsize]. unfold prepareToPlay, scratch_ready.
  assert (Hcap : getNumSamples (tempBuffer s) = cap /\ 0 <= cap).
  { destruct (tempBuffer s) as [|ch rest]; [discriminate Htwo|].
    inversion Hsize; subst. simpl. split; lia. }
  destruct Hcap as [Hcap Hpos]. rewrite Hcap.
  destruct (Z.ltb_spec cap num); cbn [tempBuffer].
  - unfold setSize, makeBuffer. split; [reflexivity|].
    apply Forall_forall. intros ch Hch. apply repeat_spec in Hch.
    subst ch. rewrite repeat_length. lia.
  - split; [assumption|]. rewrite Z.max_l by lia. assumption.
Qed.

(** [prepareToPlay] takes the new sample rate but never recomputes the
    sample bounds: after any run of calls the bounds, the loop times and
    the looping flag are those from before, whatever rates were given; the
    scratch buffer still has its two channels, of the largest size asked
    for. *)
Theorem prepareToPlay_keeps_the_sample_bounds s (cap : Z)
    (calls : list (Z * float)) :
  scratch_ready s cap ->
  loopStartSample (prepareAll silence s calls) = loopStartSample s
  /\ loopEndSample (prepareAll silence s calls) = loopEndSample s
  /\ loopStartTime (prepareAll silence s calls) = loopStartTime s
  /\ loopEndTime (prepareAll silence s calls) = loopEndTime s
  /\ isLoopingBetweenTimes (prepareAll silence s calls)
     = isLoopingBetweenTimes s
  /\ currentSampleRate (prepareAll silence s calls)
     = last (map snd calls) (currentSampleRate s)
  /\ scratch_ready (prepareAll silence s calls)
       (fold_left Z.max (map fst calls) cap).
Proof.
  intros Hscratch.
  destruct (prepareAll_frame calls s) as (H1 & H2 & H3 & H4 & H5).
  repeat (split; [assumption|]).
  clear H1 H2 H3 H4 H5. revert s cap Hscratch.
  induction calls as [|[n r] calls IH]; intros s cap Hscratch.
  - split; [reflexivity|exact Hscratch].
  - destruct (IH (prepareToPlay silence s n r) (Z.max cap n)
                (prepareToPlay_scratch n r Hscratch)) as [Hrate Hready].
    unfold prepareAll in *. cbn [fold_left map fst snd].
    split; [|exact Hready].
    rewrite Hrate.
    destruct (prepareToPlay_frame s n r) as (_ & _ & _ & _ & _ & ->).
    symmetry. apply last_cons_default.
Qed.

(** A wrapper that was constructed and prepared, and switched to looping
    before any loop times were set, has [loopEndSample = 0]: every request
    for samples stops at the modulo by zero, whatever the inner source is;
    only a request for no samples returns. *)
Theorem looping_before_any_loop_times_traps (inputSource : Src)
    (garbage : float * float * float) (calls : list (Z * float)) info :
  let s := setLoopBetweenTimes
             (prepareAll silence (construct silence inputSource garbage)
                calls) true in
  loopEndSample s = 0
  /\ getNextAudioBlock s info
     = if numSamples info >? 0 then None else Some (s, buffer info).
Proof.
  cbv zeta.
  destruct (prepareAll_frame calls (construct silence inputSource garbage))
    as (_ & Hle & _).
  assert (Hzero : loopEndSample
                    (prepareAll silence
                       (construct silence inputSource garbage) calls) = 0).
  { rewrite Hle. destruct garbage as [[t0 t1] r]. reflexivity. }
  split; [exact Hzero|].
  unfold getNextAudioBlock.
  destruct (numSamples info >? 0); [|reflexivity].
  cbn [isLoopingBetweenTimes setLoopBetweenTimes].
  unfold newEnd_of. cbn [loopEndSample setLoopBetweenTimes].
  rewrite Hzero. reflexivity.
Qed.

End AnySource.

Section SeekNeverTraps.

Context {Sample Src : Type} {PAS : PositionableAudioSource Sample Src}.
Implicit Types (s : LoopingAudioSource Sample Src).

Lemma wrap64_in_range (z : Z) : int64_range (wrap64 z).
Proof.
  unfold wrap64, wrap. int_bounds.
  change (2 ^ (64 - 1)) with 9223372036854775808.
  change (2 ^ 64) with 18446744073709551616.
  pose proof (Z.mod_pos_bound (z + 9223372036854775808)
                18446744073709551616 eq_refl).
  lia.
Qed.

(** The wrap of a positive difference of two [int64] values. *)
Lemma wrap64_difference (z : Z) :
  0 < z < 2 ^ 64 ->
  wrap64 z = z \/ wrap64 z = z - 2 ^ 64.
Proof.
  unfold wrap64, wrap.
  change (2 ^ (64 - 1)) with 9223372036854775808.
  change (2 ^ 64) with 18446744073709551616.
  intros Hz.
  destruct (Z.lt_ge_cases z 9223372036854775808).
  - left. rewrite Z.mod_small by lia. lia.
  - right.
    assert ((z + 9223372036854775808) mod 18446744073709551616
            = z + 9223372036854775808 - 18446744073709551616) as ->
      by (symmetry; apply Z.mod_unique with 1; lia).
    lia.
Qed.

Lemma rem64_defined (a b : Z) :
  b <> 0 -> (a = min_int64 -> b <> -1) ->
  rem64 a b = Some (Z.rem a b).
Proof.
  intros Hb Hab. unfold rem64.
  destruct (Z.eqb_spec b 0); [contradiction|].
  destruct (Z.eqb_spec a min_int64) as [Ea|]; [|reflexivity].
  destruct (Z.eqb_spec b (-1)) as [Eb|]; [|reflexivity].
  exfalso. exact (Hab Ea Eb).
Qed.

(** [setNextReadPosition] never stops at its modulo: for sample bounds and
    a new position in [int64], the guard leaves a loop length that is not
    zero, and the call hands an [int64] position to the inner source. *)
Theorem setNextReadPosition_never_traps s (newPosition : Z) :
  bounds_in_range s -> int64_range newPosition ->
  exists p,
    wrappedPosition s newPosition = Some p
    /\ setNextReadPosition s newPosition
       = Some (with_input s (input_setNextReadPosition (input s) p))
    /\ int64_range p.
Proof.
  intros [Hls Hle] Hnew.
  assert (Hwrap : exists p,
            wrappedPosition s newPosition = Some p /\ int64_range p).
  { unfold wrappedPosition.
    destruct (isLoopingBetweenTimes s); cbn [andb];
      [|exists newPosition; split; [reflexivity|assumption]].
    destruct (Z.gtb_spec (getNextReadPosition s) (loopStartSample s));
      cbn [andb];
      [|exists newPosition; split; [reflexivity|assumption]].
    destruct (Z.ltb_spec (getNextReadPosition s) (loopEndSample s));
      [|exists newPosition; split; [reflexivity|assumption]].
    cbv zeta. unfold sub64.
    assert (Hlen : 0 < loopEndSample s - loopStartSample s < 2 ^ 64)
      by (change (2 ^ 64) with 18446744073709551616; int_lia).
    pose proof (wrap64_difference Hlen) as Hcases.
    change (2 ^ 64) with 18446744073709551616 in Hcases.
    destruct (Z.gtb_spec newPosition (loopEndSample s)).
    - rewrite rem64_defined.
      + cbn [bind]. eexists. split; [reflexivity|apply wrap64_in_range].
      + int_lia.
      + intros _. int_lia.
    - destruct (Z.ltb_spec newPosition (loopStartSample s)).
      + rewrite rem64_defined.
        * cbn [bind]. eexists. split; [reflexivity|apply wrap64_in_range].
        * int_lia.
        * intros _. int_lia.
      + exists newPosition. split; [reflexivity|assumption]. }
  destruct Hwrap as (p & Hp & Hrange). exists p.
  split; [exact Hp|]. split; [|exact Hrange].
  unfold setNextReadPosition. rewrite Hp. reflexivity.
Qed.

End SeekNeverTraps.

Section FurtherWitnesses.

(** At a concrete input: the loop 2 to 6, the cursor at 4, a seek to 9. *)
Lemma setNextReadPosition_never_traps_witness :
  exists p,
    wrappedPosition loop_2_6_at_4 9 = Some p
    /\ setNextReadPosition loop_2_6_at_4 9
       = Some (with_input loop_2_6_at_4 (mkRamp p))
    /\ int64_range p.
Proof.
  assert (Hbounds : bounds_in_range loop_2_6_at_4)
    by (split; simpl; int_lia).
  assert (Hnew : int64_range 9) by int_lia.
  exact (@setNextReadPosition_never_traps Z RampSource _ loop_2_6_at_4 9
           Hbounds Hnew).
Defined.

(** At a concrete input: the loop 2 to 6 over a ramp, the cursor at 4, a
    block of one sample. *)
Lemma block_inside_the_loop_witness :
  getNextAudioBlock loop_2_6_at_4 (mkInfo (makeBuffer 0 2 1) 0 1)
  = match ramp_getNextAudioBlock (mkRamp 4) (mkInfo (makeBuffer 0 2 1) 0 1)
    with
    | Some (input1, out) => Some (with_input loop_2_6_at_4 input1, out)
    | None => None
    end
  /\ outputOf (getNextAudioBlock loop_2_6_at_4
                 (mkInfo (makeBuffer 0 2 1) 0 1))
     = outputOf (getNextAudioBlock (setLoopBetweenTimes loop_2_6_at_4 false)
                   (mkInfo (makeBuffer 0 2 1) 0 1)).
Proof.
  assert (Hreg : valid_region loop_2_6_at_4)
    by (unfold valid_region; simpl; int_lia).
  assert (Hcur : cursor_in_region loop_2_6_at_4)
    by (unfold cursor_in_region; simpl; lia).
  assert (Hnum : 0 < numSamples (mkInfo (makeBuffer 0 2 1) 0 1))
    by (simpl; lia).
  assert (Hin : getNextReadPosition loop_2_6_at_4
                + numSamples (mkInfo (makeBuffer 0 2 1) 0 1)
                < loopEndSample loop_2_6_at_4) by (simpl; lia).
  exact (@block_inside_the_loop_is_read_straight_through Z RampSource _
           loop_2_6_at_4 (mkInfo (makeBuffer 0 2 1) 0 1)
           eq_refl Hreg Hcur Hnum Hin).
Defined.

(** At a concrete input: the loop 2 to 6 set at one sample a second, then
    two calls that change the rate to 44100 and to 48000. *)
Lemma prepareToPlay_keeps_the_sample_bounds_witness :
  let s' := prepareAll 0 loop_2_6_at_4
              [(1000, 44100%float); (256, 48000%float)] in
  loopStartSample s' = 2 /\ loopEndSample s' = 6
  /\ loopStartTime s' = 2%float /\ loopEndTime s' = 6%float
  /\ isLoopingBetweenTimes s' = true
  /\ currentSampleRate s' = 48000%float
  /\ scratch_ready s' 1000.
Proof.
  assert (Hscratch : scratch_ready loop_2_6_at_4 512)
    by (split; [reflexivity|repeat constructor]).
  exact (@prepareToPlay_keeps_the_sample_bounds Z RampSource _ 0
           loop_2_6_at_4 512 [(1000, 44100%float); (256, 48000%float)]
           Hscratch).
Defined.

End FurtherWitnesses.

Section LongBlocksAndSeeks.

Context {Sample Src : Type} {PAS : PositionableAudioSource Sample Src}.
Implicit Types (s : LoopingAudioSource Sample Src)
  (info : AudioSourceChannelInfo Sample).

(** A block longer than the loop (and ending below twice the loop end) is
    never split: [newEnd] comes out above the cursor, and the whole block
    is one read of the inner source, past the loop end. *)
Theorem block_longer_than_the_loop_is_not_split s info :
  isLoopingBetweenTimes s = true ->
  valid_region s -> cursor_in_region s ->
  loopEndSample s - loopStartSample s < numSamples info ->
  getNextReadPosition s + numSamples info < 2 * loopEndSample s ->
  newEnd_of s (getNextReadPosition s) (numSamples info)
  = Some (loopStartSample s
          + (getNextReadPosition s + numSamples info - loopEndSample s))
  /\ getNextAudioBlock s info
     = match input_getNextAudioBlock (input s) info with
       | Some (input1, out) => Some (with_input s input1, out)
       | None => None
       end.
Proof.
  intros Hloop [Hbounds Hroom] Hcur Hlong Hshort.
  unfold cursor_in_region in Hcur.
  assert (Hend : newEnd_of s (getNextReadPosition s) (numSamples info)
                 = Some (loopStartSample s
                         + (getNextReadPosition s + numSamples info
                            - loopEndSample s))).
  { unfold newEnd_of.
    rewrite add64_id by int_lia.
    rewrite rem64_nonneg by lia. cbn [bind].
    assert ((getNextReadPosition s + numSamples info) mod loopEndSample s
            = getNextReadPosition s + numSamples info - loopEndSample s)
      as -> by (symmetry; apply Z.mod_unique with 1; lia).
    rewrite add64_id by int_lia. reflexivity. }
  split; [exact Hend|].
  unfold getNextAudioBlock.
  destruct (Z.gtb_spec (numSamples info) 0); [|lia].
  rewrite Hloop, Hend. cbn [bind].
  destruct (Z.gtb_spec
              (loopStartSample s
               + (getNextReadPosition s + numSamples info - loopEndSample s))
              (getNextReadPosition s)); [|lia].
  destruct (input_getNextAudioBlock (input s) info) as [[input1 out]|];
    reflexivity.
Qed.

(** A seek to a whole number of loop lengths past the loop end lands on
    [loopStartSample]; the guard of [setNextReadPosition] is strict, so
    with the cursor there the next seek is handed on as it is, wherever it
    points. *)
Theorem seek_onto_the_loop_start_ends_the_wrapping s
    (newPosition nextPosition : Z) :
  position_stored_source (Src := Src) ->
  isLoopingBetweenTimes s = true ->
  loopStartSample s < getNextReadPosition s < loopEndSample s ->
  0 <= loopStartSample s -> loopEndSample s <= max_int64 ->
  loopEndSample s < newPosition <= max_int64 ->
  (newPosition - loopEndSample s)
    mod (loopEndSample s - loopStartSample s) = 0 ->
  exists s',
    setNextReadPosition s newPosition = Some s'
    /\ getNextReadPosition s' = loopStartSample s
    /\ wrappedPosition s' nextPosition = Some nextPosition.
Proof.
  intros Hstored Hloop Hcur Hls Hle Hnew Hmultiple.
  assert (Hnew' : 0 <= newPosition <= max_int64) by lia.
  pose proof (wrappedPosition_guarded s Hloop Hcur Hls Hle Hnew') as Hwrap.
  destruct (Z.gtb_spec newPosition (loopEndSample s)); [|lia].
  rewrite Hmultiple, Z.add_0_r in Hwrap.
  unfold setNextReadPosition. rewrite Hwrap. cbn [bind].
  eexists. split; [reflexivity|].
  assert (Hpos : getNextReadPosition
                   (with_input s
                      (input_setNextReadPosition (input s)
                         (loopStartSample s)))
                 = loopStartSample s)
    by (unfold getNextReadPosition; cbn [input with_input]; apply Hstored).
  split; [exact Hpos|].
  apply wrappedPosition_unguarded.
  rewrite Hpos. cbn [loopStartSample with_input]. lia.
Qed.

End LongBlocksAndSeeks.

Section LongBlocksAndSeeksWitnesses.

(** At a concrete input: the loop 2 to 6 over a ramp, the cursor at 4, a
    block of 5 samples. *)
Lemma block_longer_than_the_loop_witness :
  newEnd_of loop_2_6_at_4 4 5 = Some (2 + (4 + 5 - 6))
  /\ getNextAudioBlock loop_2_6_at_4 (mkInfo (makeBuffer 0 2 5) 0 5)
     = match ramp_getNextAudioBlock (mkRamp 4)
               (mkInfo (makeBuffer 0 2 5) 0 5) with
       | Some (input1, out) => Some (with_input loop_2_6_at_4 input1, out)
       | None => None
       end.
Proof.
  assert (Hreg : valid_region loop_2_6_at_4)
    by (unfold valid_region; simpl; int_lia).
  assert (Hcur : cursor_in_region loop_2_6_at_4)
    by (unfold cursor_in_region; simpl; lia).
  assert (Hlong : loopEndSample loop_2_6_at_4 - loopStartSample loop_2_6_at_4
                  < numSamples (mkInfo (makeBuffer 0 2 5) 0 5))
    by (simpl; lia).
  assert (Hshort : getNextReadPosition loop_2_6_at_4
                   + numSamples (mkInfo (makeBuffer 0 2 5) 0 5)
                   < 2 * loopEndSample loop_2_6_at_4) by (simpl; lia).
  exact (@block_longer_than_the_loop_is_not_split Z RampSource _
           loop_2_6_at_4 (mkInfo (makeBuffer 0 2 5) 0 5)
           eq_refl Hreg Hcur Hlong Hshort).
Defined.

(** At a concrete input: the loop 2 to 6 over a ramp, the cursor at 4, a
    seek to 14 = 6 + 2 * 4, then a seek to 100. *)
Lemma seek_onto_the_loop_start_witness :
  exists s',
    setNextReadPosition loop_2_6_at_4 14 = Some s'
    /\ getNextReadPosition s' = 2
    /\ wrappedPosition s' 100 = Some 100.
Proof.
  assert (Hstored : position_stored_source (Src := RampSource))
    by (intros i p; reflexivity).
  assert (Hcur : loopStartSample loop_2_6_at_4
                 < getNextReadPosition loop_2_6_at_4
                 < loopEndSample loop_2_6_at_4) by (simpl; lia).
  assert (Hls : 0 <= loopStartSample loop_2_6_at_4) by (simpl; lia).
  assert (Hle : loopEndSample loop_2_6_at_4 <= max_int64)
    by (simpl; int_lia).
  assert (Hnew : loopEndSample loop_2_6_at_4 < 14 <= max_int64)
    by (simpl; int_lia).
  assert (Hmultiple :
            (14 - loopEndSample loop_2_6_at_4)
              mod (loopEndSample loop_2_6_at_4
                   - loopStartSample loop_2_6_at_4) = 0) by reflexivity.
  exact (@seek_onto_the_loop_start_ends_the_wrapping Z RampSource _
           loop_2_6_at_4 14 100 Hstored eq_refl Hcur Hls Hle Hnew
           Hmultiple).
Defined.

End LongBlocksAndSeeksWitnesses.
